(** * job-scout backend: the filtering and scoring pipeline of [backend/main.py]

    A shallow embedding of the list transformations of the backend
    (lookback parsing, remote validation, deduplication, exclusion filter,
    AND-mode filter, scoring, sort, sanitization, truncation) and of the two
    request handlers, followed by the properties proved about them.

    Job records are Python dictionaries with string keys: they are finite
    maps from field names to dynamically typed values.  Exceptions are
    results of a small error monad.  The two external calls (the multi-site
    scraper and the government-jobs HTTP request) are functions passed in as
    arguments.

    A text is a sequence of code points from U+0000 to U+00FF, one per
    character of the [string] type; on these, lower-casing, white space and
    the reading of integers are Python's. *)

From Stdlib Require Import ZArith Ascii String List Decimal DecimalString DecimalNat DecimalPos DecimalN
  Permutation Sorted.
From stdpp Require Import base decidable option list gmap strings.

Local Open Scope string_scope.
Local Open Scope list_scope.
Local Open Scope Z_scope.

(** ** Python values *)

(** A naive [datetime] (no time zone, no microseconds). *)
Record datetime := mk_datetime {
  dt_year : nat; dt_month : nat; dt_day : nat;
  dt_hour : nat; dt_minute : nat; dt_second : nat
}.

(** The values a record field can hold.  [VNum z] stands for a Python [int]
    and for a finite [float] of the same value: the code only compares such
    numbers and tests them for truth.  [VNaN] is the float not-a-number,
    which pandas writes for a missing cell. *)
Inductive value :=
| VNone
| VBool (b : bool)
| VNum (z : Z)
| VNaN
| VStr (s : string)
| VDateTime (d : datetime).

#[global] Instance datetime_eq_dec : EqDecision datetime.
Proof. solve_decision. Defined.

#[global] Instance value_eq_dec : EqDecision value.
Proof. solve_decision. Defined.

(** A job record: a [dict] with string keys. *)
Abbreviation job := (gmap string value).

(** Exceptions deriving from Python's [Exception]. *)
Inductive exn :=
| ValueError
| TypeError
| IndexError
| OtherError (msg : string).

(** The outcome of code that may raise. *)
Inductive result (A : Type) :=
| Ok (a : A)
| Raise (e : exn).
Arguments Ok {A} a.
Arguments Raise {A} e.

#[global] Instance result_ret : MRet result := fun A a => Ok a.
#[global] Instance result_bind : MBind result := fun A B k r =>
  match r with
  | Ok a => k a
  | Raise e => Raise e
  end.

(** [try: body except Exception: handler]. *)
Definition try_except {A} (body : result A) (handler : exn -> A) : A :=
  match body with
  | Ok a => a
  | Raise e => handler e
  end.

(** ** Strings *)

Module Str.

(** [c.lower()] for a code point up to U+00FF: the capitals A to Z, and the
    capitals U+00C0 to U+00DE but for the multiplication sign U+00D7, move
    32 places up; every other character is its own lower case. *)
Definition lower_char (c : ascii) : ascii :=
  let n := nat_of_ascii c in
  if ((65 <=? n) && (n <=? 90))%nat then ascii_of_nat (n + 32)
  else if ((192 <=? n) && (n <=? 222) && negb (n =? 215))%nat then ascii_of_nat (n + 32)
  else c.

Fixpoint lower (s : string) : string :=
  match s with
  | EmptyString => EmptyString
  | String c t => String (lower_char c) (lower t)
  end.

(** [c.isspace()] for a code point up to U+00FF, which is what [str.strip()]
    and [int()] remove: tab to carriage return, the four separators U+001C
    to U+001F, the space, the next-line control U+0085 and the no-break
    space U+00A0. *)
Definition isspace (c : ascii) : bool :=
  let n := nat_of_ascii c in
  (((9 <=? n) && (n <=? 13)) || ((28 <=? n) && (n <=? 32))
   || (n =? 133) || (n =? 160))%nat.

Fixpoint lstrip (s : string) : string :=
  match s with
  | EmptyString => EmptyString
  | String c t => if isspace c then lstrip t else s
  end.

Fixpoint rstrip (s : string) : string :=
  match s with
  | EmptyString => EmptyString
  | String c t =>
      match rstrip t with
      | EmptyString => if isspace c then EmptyString else String c EmptyString
      | t' => String c t'
      end
  end.

Definition strip (s : string) : string := rstrip (lstrip s).

(** [needle in hay]. *)
Fixpoint contains (needle hay : string) : bool :=
  String.prefix needle hay ||
  match hay with
  | EmptyString => false
  | String _ t => contains needle t
  end.

(** [s.endswith(suffix)]. *)
Fixpoint endswith (s suffix : string) : bool :=
  String.eqb s suffix ||
  match s with
  | EmptyString => false
  | String _ t => endswith t suffix
  end.

(** [sep.join(parts)]. *)
Fixpoint join (sep : string) (parts : list string) : string :=
  match parts with
  | [] => EmptyString
  | [p] => p
  | p :: rest => p +:+ sep +:+ join sep rest
  end.

(** [s[:-1]] and [s[-1]]; the latter raises on the empty string. *)
Fixpoint init (s : string) : string :=
  match s with
  | EmptyString => EmptyString
  | String c EmptyString => EmptyString
  | String c t => String c (init t)
  end.

Fixpoint last (s : string) : option ascii :=
  match s with
  | EmptyString => None
  | String c EmptyString => Some c
  | String _ t => last t
  end.

(** The value of a decimal digit. *)
Definition digit (c : ascii) : option Z :=
  let n := nat_of_ascii c in
  if ((48 <=? n) && (n <=? 57))%nat then Some (Z.of_nat (n - 48)) else None.

(** The digits of an integer literal as [int()] reads it: decimal digits
    with single underscores between them, and at least one digit.
    [after_digit] tells that the character before was a digit. *)
Fixpoint int_digits (after_digit : bool) (s : string) : option (list Z) :=
  match s with
  | EmptyString => if after_digit then Some [] else None
  | String c t =>
      match digit c with
      | Some d => option_map (cons d) (int_digits true t)
      | None =>
          if Ascii.eqb c "_" && after_digit then int_digits false t else None
      end
  end.

(** The number a list of digits writes, most significant first. *)
Definition digits_value (ds : list Z) : Z :=
  fold_left (fun acc d => 10 * acc + d) ds 0.

(** An optional sign in front of the digits. *)
Definition split_sign (s : string) : Z * string :=
  match s with
  | String c t =>
      if Ascii.eqb c "+" then (1, t)
      else if Ascii.eqb c "-" then (-1, t)
      else (1, s)
  | EmptyString => (1, s)
  end.

(** The decimal writing of a natural number, without leading zeros. *)
Definition decimal (n : N) : string := NilEmpty.string_of_uint (N.to_uint n).

(** A number on two (or [w]) digits, zero padded, as [%02d] prints it. *)
Definition of_nat (n : nat) : string := NilEmpty.string_of_uint (Nat.to_uint n).

Fixpoint zeros (k : nat) : string :=
  match k with
  | O => EmptyString
  | S k' => String "0" (zeros k')
  end.

Definition pad (w n : nat) : string :=
  let s := of_nat n in zeros (w - String.length s) +:+ s.

End Str.

(** ** Builtins on values *)

(** [bool(v)]. *)
Definition py_truthy (v : value) : bool :=
  match v with
  | VNone => false
  | VBool b => b
  | VNum z => negb (z =? 0)
  | VNaN => true
  | VStr s => negb (String.eqb s "")
  | VDateTime _ => true
  end.

(** [a or b]. *)
Definition py_or (a b : value) : value := if py_truthy a then a else b.

(** [d.isoformat()] and [str(d)] for a naive datetime without microseconds. *)
Definition isoformat_sep (sep : string) (d : datetime) : string :=
  Str.pad 4 (dt_year d) +:+ "-" +:+ Str.pad 2 (dt_month d) +:+ "-" +:+ Str.pad 2 (dt_day d)
  +:+ sep +:+ Str.pad 2 (dt_hour d) +:+ ":" +:+ Str.pad 2 (dt_minute d) +:+ ":" +:+ Str.pad 2 (dt_second d).

Definition isoformat : datetime -> string := isoformat_sep "T".

(** [str(v)]. *)
Definition py_str (v : value) : string :=
  match v with
  | VNone => "None"
  | VBool true => "True"
  | VBool false => "False"
  | VNum z => NilEmpty.string_of_int (Z.to_int z)
  | VNaN => "nan"
  | VStr s => s
  | VDateTime d => isoformat_sep " " d
  end.

(** The largest number of digits [int()] reads, [sys.int_max_str_digits]
    as the interpreter starts with it. *)
Definition int_max_str_digits : nat := 4300.

(** [int(s)]: white space around the text is dropped, a sign may come first,
    then decimal digits with single underscores between them.  Anything
    else, and a text of more digits than [int_max_str_digits], is a
    [ValueError]. *)
Definition py_int (s : string) : result Z :=
  let '(sign, body) := Str.split_sign (Str.strip s) in
  match Str.int_digits false body with
  | Some ds =>
      if (length ds <=? int_max_str_digits)%nat then Ok (sign * Str.digits_value ds)
      else Raise ValueError
  | None => Raise ValueError
  end.

(** [d.get(key)] and [d.get(key, default)]. *)
Definition get (j : job) (key : string) : value := default VNone (j !! key).
Definition get_or (j : job) (key : string) (dflt : value) : value := default dflt (j !! key).

(** [any(p(x) for x in l)] and [all(p(x) for x in l)]. *)
Definition any {A} (p : A -> bool) (l : list A) : bool := existsb p l.
Definition all {A} (p : A -> bool) (l : list A) : bool := forallb p l.

(** [jobs[:limit]]: a negative limit counts from the end. *)
Definition py_slice_to {A} (l : list A) (limit : Z) : list A :=
  if 0 <=? limit then take (Z.to_nat limit) l
  else take (Z.to_nat (Z.of_nat (length l) + limit)) l.

(** Numbers as the comparison operators see them: [bool] is a subclass of
    [int], and every comparison with NaN is false. *)
Inductive num :=
| Fin (z : Z)
| NaN.

Definition num_view (v : value) : option num :=
  match v with
  | VBool b => Some (Fin (if b then 1 else 0))
  | VNum z => Some (Fin z)
  | VNaN => Some NaN
  | _ => None
  end.

Definition num_gt (a b : num) : bool :=
  match a, b with
  | Fin x, Fin y => y <? x
  | _, _ => false
  end.

Definition num_ge (a b : num) : bool :=
  match a, b with
  | Fin x, Fin y => y <=? x
  | _, _ => false
  end.

Definition num_eq (a b : num) : bool :=
  match a, b with
  | Fin x, Fin y => x =? y
  | _, _ => false
  end.

Definition dt_tuple (d : datetime) : list nat :=
  [dt_year d; dt_month d; dt_day d; dt_hour d; dt_minute d; dt_second d].

Fixpoint lex_lt (a b : list nat) : bool :=
  match a, b with
  | x :: a', y :: b' => (x <? y)%nat || ((x =? y)%nat && lex_lt a' b')
  | [], _ :: _ => true
  | _, [] => false
  end.

(** [a > b]: defined between numbers, between texts and between datetimes;
    a [TypeError] otherwise. *)
Definition py_gt (a b : value) : result bool :=
  match num_view a, num_view b with
  | Some x, Some y => Ok (num_gt x y)
  | _, _ =>
      match a, b with
      | VStr s, VStr t => Ok (String.ltb t s)
      | VDateTime d, VDateTime e => Ok (lex_lt (dt_tuple e) (dt_tuple d))
      | _, _ => Raise TypeError
      end
  end.

(** [a >= n] for an integer [n]. *)
Definition py_ge_int (a : value) (n : Z) : result bool :=
  match num_view a with
  | Some x => Ok (num_ge x (Fin n))
  | None => Raise TypeError
  end.

(** [max(a, b)]: the first argument unless the second is greater. *)
Definition py_max (a b : value) : result value :=
  gt ← py_gt b a; Ok (if gt : bool then b else a).

(** [a == b]: a NaN is equal to nothing, not even to itself. *)
Definition py_eq (a b : value) : bool :=
  match num_view a, num_view b with
  | Some x, Some y => num_eq x y
  | None, None => bool_decide (a = b)
  | _, _ => false
  end.

(** [a is b], where it differs from [a == b]: the NaN of a missing cell is
    the one object [numpy.nan], which every record of a data frame shares. *)
Definition py_is (a b : value) : bool :=
  match a, b with
  | VNaN, VNaN => true
  | _, _ => false
  end.

(** [v in seen]: a [set] takes a key as found when it is the same object as
    a stored key or equal to it. *)
Definition py_in_set (v : value) (seen : list value) : bool :=
  existsb (fun k => py_is v k || py_eq v k) seen.

(** [sorted(l, key=key, reverse=True)], modelled by an insertion sort into
    descending key order: each element, taken from the right, is put in
    front of the first element whose key is not greater than its own. *)
Fixpoint insert_desc {A} (key : A -> Z) (x : A) (l : list A) : list A :=
  match l with
  | [] => [x]
  | y :: l' => if key y <=? key x then x :: l else y :: insert_desc key x l'
  end.

Fixpoint sorted_reverse {A} (key : A -> Z) (l : list A) : list A :=
  match l with
  | [] => []
  | x :: l' => insert_desc key x (sorted_reverse key l')
  end.

(** ** Configuration and request *)

(** The [scoring:] section of the configuration file; an absent key falls
    back on the built-in list. *)
Record ScoringConfig := mk_scoring {
  sc_mgmt_titles : option (list string);
  sc_senior_ic_titles : option (list string);
  sc_preferred_titles : option (list string);
  sc_bad_titles : option (list string);
  sc_good_locations : option (list string);
  sc_good_skills : option (list string);
  sc_red_flags : option (list string);
  sc_large_companies : option (list string)
}.

(** One entry of [locations:]. *)
Record LocationSpec := mk_location {
  loc_name : option string;
  loc_is_remote : option bool;
  loc_location : option string;
  loc_distance : option Z
}.

(** The process-wide [CONFIG], for a configuration file whose keys hold
    values of the kind the code expects: a list of texts for each keyword
    list, a list of entries for the locations. *)
Record Config := mk_config {
  cfg_sites : list string;
  cfg_country_indeed : string;
  cfg_results_wanted : Z;
  cfg_linkedin_fetch_description : bool;
  cfg_verbose : Z;
  cfg_usajobs_enabled : bool;
  cfg_usajobs_api_key : option string;
  cfg_usajobs_email : option string;
  cfg_locations : list LocationSpec;
  cfg_exclude_keywords : list string;
  cfg_include_keywords : list string;
  cfg_scoring : ScoringConfig
}.

Record JobRequest := mk_request {
  sinceWhen : string;
  keywords : option (list string);
  excludeKeywords : option (list string);
  isRemote : option bool;
  location : option string;
  distance : option Z;
  requireAllKeywords : bool;
  limit : Z
}.

Record JobResponse := mk_response {
  error : bool;
  jobs : list job;
  locations_searched : option (list string)
}.

(** Truth of an optional text, and [x or dflt]. *)
Definition str_truthy (o : option string) : bool :=
  match o with
  | Some s => negb (String.eqb s "")
  | None => false
  end.

Definition z_or (o : option Z) (dflt : Z) : Z :=
  match o with
  | Some z => if z =? 0 then dflt else z
  | None => dflt
  end.

Definition list_truthy {A} (o : option (list A)) : bool :=
  match o with
  | Some (_ :: _) => true
  | _ => false
  end.

(** ** External calls *)

(** The keyword arguments of [scrape_jobs]. *)
Record ScrapeParams := mk_params {
  p_site_name : list string;
  p_search_term : string;
  p_country_indeed : string;
  p_results_wanted : Z;
  p_hours_old : Z;
  p_linkedin_fetch_description : bool;
  p_verbose : Z;
  p_is_remote : option bool;
  p_location : option string;
  p_distance : option Z
}.

(** The query of the government-jobs request, with its two credentials. *)
Record UsajobsQuery := mk_query {
  q_user_agent : string;
  q_authorization_key : string;
  q_keyword : string;
  q_date_posted : Z;
  q_results_per_page : Z;
  q_job_category_code : string;
  q_location_name : option string;
  q_radius : option Z
}.

(** The call of [scrape_jobs] on the keyword arguments, followed by the
    conversion of the data frame into a list of records. *)
Definition Scraper := ScrapeParams -> result (list job).

(** The body of the [try] of [scrape_usajobs]: the HTTP request and the
    mapping of its items into job records. *)
Definition UsajobsFetch := UsajobsQuery -> result (list job).

(** ** The functions of [backend/main.py] *)

Definition parse_since_when (since_when : string) : result Z :=
  value ← py_int (Str.init since_when);
  match Str.last since_when with
  | None => Raise IndexError
  | Some unit =>
      if Ascii.eqb unit "d" then Ok (value * 24)
      else if Ascii.eqb unit "w" then Ok (value * 24 * 7)
      else Ok 24
  end.

(** The keyword arguments [scrape_single_location] builds. *)
Definition scrape_params (CONFIG : Config)
    (search_term : string) (hours_old results_wanted : Z)
    (is_remote : bool) (location : option string) (distance : Z)
  : ScrapeParams :=
  {| p_site_name := cfg_sites CONFIG;
     p_search_term := search_term;
     p_country_indeed := cfg_country_indeed CONFIG;
     p_results_wanted := results_wanted;
     p_hours_old := hours_old;
     p_linkedin_fetch_description := cfg_linkedin_fetch_description CONFIG;
     p_verbose := cfg_verbose CONFIG;
     p_is_remote := if is_remote then Some true else None;
     p_location :=
       if is_remote then None
       else if str_truthy location then location
       else Some "United States";
     p_distance :=
       if is_remote then None
       else if str_truthy location then Some distance
       else None |}.

Definition scrape_single_location (CONFIG : Config) (scrape_jobs : Scraper)
    (search_term : string) (hours_old results_wanted : Z)
    (is_remote : bool) (location : option string) (distance : Z)
  : result (list job) :=
  let params :=
    scrape_params CONFIG search_term hours_old results_wanted is_remote location distance in
  jobs_df ← scrape_jobs params;
  Ok jobs_df.

Definition scrape_usajobs (CONFIG : Config) (fetch : UsajobsFetch)
    (search_term : string) (hours_old results_wanted : Z)
    (is_remote : bool) (location : option string) (distance : Z)
  : list job :=
  match cfg_usajobs_api_key CONFIG, cfg_usajobs_email CONFIG with
  | Some api_key, Some email =>
      if String.eqb api_key "" || String.eqb email "" then []
      else
        let days_posted :=
          let d := Z.min (hours_old / 24) 60 in if d =? 0 then 1 else d in
        let filtered := str_truthy location && negb is_remote in
        let query :=
          {| q_user_agent := email;
             q_authorization_key := api_key;
             q_keyword := search_term;
             q_date_posted := days_posted;
             q_results_per_page := Z.min results_wanted 500;
             q_job_category_code := "2210";
             q_location_name := if filtered then location else None;
             q_radius :=
               if filtered && negb (distance =? 0) then Some distance else None |} in
        try_except (fetch query) (fun _ => [])
  | _, _ => []
  end.

(** The lower-cased text of a field, [str(job.get(key, "")).lower()]. *)
Definition field_lower (j : job) (key : string) : string :=
  Str.lower (py_str (get_or j key (VStr ""))).

Definition filter_jobs (jobs : list job) (exclude_list : list string) : list job :=
  match exclude_list with
  | [] => jobs
  | _ =>
      let exclude_lower := map Str.lower exclude_list in
      filter (fun j =>
                negb (any (fun exc => Str.contains exc (field_lower j "title")) exclude_lower))
             jobs
  end.

(** The AND-mode comprehension shared by the two handlers. *)
Definition and_mode_filter (jobs : list job) (kws : list string) : list job :=
  let keywords_lower := map Str.lower kws in
  filter (fun j =>
            all (fun kw => Str.contains kw (field_lower j "title")
                           || Str.contains kw (field_lower j "description"))
                keywords_lower)
         jobs.

Module Defaults.

Definition mgmt_titles : list string :=
  ["manager"; "director"; "head of"; "vp "; "vice president"].

Definition senior_ic_titles : list string :=
  ["senior"; "sr."; "sr "; "lead"; "principal"; "staff"].

Definition preferred_titles : list string := [].

Definition bad_titles : list string :=
  ["developer"; "software engineer"; "product manager"; "project manager";
   "data engineer"; "machine learning"; "ml "; "ai "; "analytics";
   "financial system"; "business system"; "hris"; "erp"; "salesforce";
   "mainframe"; "z/os"; "as/400"; "cobol";
   "expense"; "budget"; "accounting"; "credit"; "risk analyst";
   "marketing"; "sales engineer"; "solutions architect"; "pre-sales";
   "recruiting"; "talent"; "hr "; "human resource"].

Definition good_locations : list string := ["remote"].

Definition good_skills : list string :=
  ["terraform"; "ansible"; "kubernetes"; "docker"; "aws"; "azure"; "gcp"].

Definition red_flags : list string := ["contract to hire"; "c2h"].

Definition large_companies : list string :=
  ["amazon"; "aws"; "google"; "microsoft"; "meta"; "facebook"; "apple"; "netflix";
   "nvidia"; "oracle"; "ibm"; "cisco"; "intel"; "salesforce"; "adobe";
   "accenture"; "deloitte"; "kpmg"; "pwc"; "cognizant"; "infosys";
   "wipro"; "tcs"; "capgemini"; "dxc"; "hcl";
   "robert half"; "randstad"; "manpower"; "kelly services"; "adecco";
   "insight global"; "teksystems"; "apex systems"].

(** The configuration when no file is loaded. *)
Definition scoring : ScoringConfig :=
  mk_scoring None None None None None None None None.

End Defaults.

(** The body of the scoring loop: the score of one record. *)
Definition job_score (scoring : ScoringConfig) (j : job) : Z :=
  let mgmt_titles := default Defaults.mgmt_titles (sc_mgmt_titles scoring) in
  let senior_ic_titles := default Defaults.senior_ic_titles (sc_senior_ic_titles scoring) in
  let preferred_titles := default Defaults.preferred_titles (sc_preferred_titles scoring) in
  let bad_titles := default Defaults.bad_titles (sc_bad_titles scoring) in
  let good_locations := default Defaults.good_locations (sc_good_locations scoring) in
  let good_skills := default Defaults.good_skills (sc_good_skills scoring) in
  let red_flags := default Defaults.red_flags (sc_red_flags scoring) in
  let large_companies := default Defaults.large_companies (sc_large_companies scoring) in
  let title := field_lower j "title" in
  let description := field_lower j "description" in
  let location := field_lower j "location" in
  let company := field_lower j "company" in
  let text := title +:+ " " +:+ description +:+ " " +:+ company in
  let score := 0 in
  let is_manager := any (fun kw => Str.contains kw title) mgmt_titles in
  let is_senior_ic := any (fun kw => Str.contains kw title) senior_ic_titles && negb is_manager in
  let score :=
    if is_manager then score + 25
    else if is_senior_ic then score + 10
    else score - 10 in
  let score :=
    if list_truthy (Some preferred_titles) && any (fun kw => Str.contains kw title) preferred_titles
    then score + 15 else score in
  let score := if any (fun kw => Str.contains kw title) bad_titles then score - 20 else score in
  let score := if any (fun loc => Str.contains loc location) good_locations then score + 10 else score in
  let score :=
    if Str.contains "remote" location || Str.contains "remote" title then score + 10 else score in
  let score :=
    fold_left (fun score skill => if Str.contains skill description then score + 5 else score)
              good_skills score in
  let score :=
    fold_left (fun score flag => if Str.contains flag text then score - 10 else score)
              red_flags score in
  let score := if any (fun lc => Str.contains lc company) large_companies then score - 5 else score in
  let score := if String.eqb (field_lower j "site") "usajobs" then score + 10 else score in
  score.

(** The body of the scoring loop: the record after its in-place updates. *)
Definition score_job (scoring : ScoringConfig) (j : job) : job :=
  let mgmt_titles := default Defaults.mgmt_titles (sc_mgmt_titles scoring) in
  let senior_ic_titles := default Defaults.senior_ic_titles (sc_senior_ic_titles scoring) in
  let large_companies := default Defaults.large_companies (sc_large_companies scoring) in
  let title := field_lower j "title" in
  let company := field_lower j "company" in
  let is_manager := any (fun kw => Str.contains kw title) mgmt_titles in
  let is_senior_ic := any (fun kw => Str.contains kw title) senior_ic_titles && negb is_manager in
  let score := job_score scoring j in
  let j1 :=
    if any (fun lc => Str.contains lc company) large_companies
    then <["_large_company" := VBool true]> j else j in
  let j2 :=
    if String.eqb (field_lower j "site") "usajobs"
    then <["_govt_job" := VBool true]> j1 else j1 in
  <["_is_senior_ic" := VBool is_senior_ic]>
    (<["_is_manager" := VBool is_manager]>
       (<["_score" := VNum score]> j2)).

(** The sort key [x.get("_score", 0)]; the loop has stored an integer there. *)
Definition score_key (j : job) : Z :=
  match get_or j "_score" (VNum 0) with
  | VNum z => z
  | VBool true => 1
  | _ => 0
  end.

Definition score_jobs (CONFIG : Config) (jobs : list job) (include_list : list string)
  : list job :=
  let scored := map (score_job (cfg_scoring CONFIG)) jobs in
  sorted_reverse score_key scored.

Definition generic_locations : list string :=
  ["remote"; "usa"; "united states"; "anywhere"; "work from home"; "wfh"; "nationwide"].

Definition state_abbrevs : list string :=
  ["al"; "ak"; "az"; "ar"; "ca"; "co"; "ct"; "de"; "fl"; "ga";
   "hi"; "id"; "il"; "in"; "ia"; "ks"; "ky"; "la"; "me"; "md";
   "ma"; "mi"; "mn"; "ms"; "mo"; "mt"; "ne"; "nv"; "nh"; "nj";
   "nm"; "ny"; "nc"; "nd"; "oh"; "ok"; "or"; "pa"; "ri"; "sc";
   "sd"; "tn"; "tx"; "ut"; "vt"; "va"; "wa"; "wv"; "wi"; "wy"; "dc"].

(** The location text the validation looks at. *)
Definition remote_location (j : job) : string :=
  Str.strip (Str.lower (py_str (py_or (get j "location") (VStr "")))).

Definition has_state (location : string) : bool :=
  any (fun st => Str.contains (", " +:+ st) (", " +:+ location)
                 || Str.endswith location (" " +:+ st))
      state_abbrevs.

(** One turn of the validation loop: [Some] of the record appended to
    [validated], or [None] when the record is skipped. *)
Definition validate_remote_job (salary_threshold : Z) (j : job) : result (option job) :=
  let location := remote_location j in
  if String.eqb location "" then
    Ok (Some (<["_remote_validated" := VBool true]> j))
  else if any (fun gen => Str.contains gen location) generic_locations then
    Ok (Some (<["_remote_validated" := VBool true]> j))
  else
    let min_salary := py_or (get j "min_amount") (VNum 0) in
    let max_salary := py_or (get j "max_amount") (VNum 0) in
    salary ← py_max min_salary max_salary;
    high ← py_ge_int salary salary_threshold;
    if high : bool then
      Ok (Some (<["_high_salary" := VBool true]> (<["_remote_validated" := VBool false]> j)))
    else if has_state location || Str.contains "," location then
      Ok None
    else
      Ok (Some (<["_remote_validated" := VBool true]> j)).

Fixpoint validate_remote_jobs_with (salary_threshold : Z) (jobs : list job)
  : result (list job) :=
  match jobs with
  | [] => Ok []
  | j :: rest =>
      kept ← validate_remote_job salary_threshold j;
      validated ← validate_remote_jobs_with salary_threshold rest;
      Ok (match kept with
          | Some j' => j' :: validated
          | None => validated
          end)
  end.

(** The default [salary_threshold], which is what both handlers use. *)
Definition validate_remote_jobs : list job -> result (list job) :=
  validate_remote_jobs_with 150000.

Definition clean_value (v : value) : value :=
  match v with
  | VNaN => VNone
  | VDateTime d => VStr (isoformat d)
  | _ => v
  end.

Definition clean_job_data (jobs : list job) : list job :=
  map (fun j : job => clean_value <$> j) jobs.

Fixpoint dedupe_from (seen : list value) (jobs : list job) : list job :=
  match jobs with
  | [] => []
  | j :: rest =>
      let url := get j "job_url" in
      if py_truthy url && negb (py_in_set url seen) then
        j :: dedupe_from (url :: seen) rest
      else if negb (py_truthy url) then
        j :: dedupe_from seen rest
      else dedupe_from seen rest
  end.

Definition dedupe_jobs (jobs : list job) : list job := dedupe_from [] jobs.

(** ** The request handlers *)

Definition search_term_of (request : JobRequest) : string :=
  if list_truthy (keywords request)
  then Str.join " " (default [] (keywords request))
  else "software engineer".

Definition exclude_list_of (CONFIG : Config) (request : JobRequest) : list string :=
  default [] (excludeKeywords request) ++ cfg_exclude_keywords CONFIG.

Definition usajobs_on (CONFIG : Config) : bool :=
  cfg_usajobs_enabled CONFIG && str_truthy (cfg_usajobs_api_key CONFIG).

Definition is_remote_of (request : JobRequest) : bool :=
  default false (isRemote request).

Definition error_response : JobResponse :=
  {| error := true; jobs := []; locations_searched := None |}.

(** The steps both handlers run after the merge: exclusion filter, AND-mode
    filter, scoring and sort, sanitization, truncation. *)
Definition finish (CONFIG : Config) (request : JobRequest) (merged : list job) : list job :=
  let exclude_list := exclude_list_of CONFIG request in
  let jobs := filter_jobs merged exclude_list in
  let jobs :=
    if requireAllKeywords request && list_truthy (keywords request)
    then and_mode_filter jobs (default [] (keywords request))
    else jobs in
  let include_list := cfg_include_keywords CONFIG in
  let jobs := score_jobs CONFIG jobs include_list in
  let jobs := clean_job_data jobs in
  py_slice_to jobs (limit request).

(** The [try] block of [get_jobs]. *)
Definition get_jobs_body (CONFIG : Config) (scrape_jobs : Scraper) (fetch : UsajobsFetch)
    (request : JobRequest) : result JobResponse :=
  hours_old ← parse_since_when (sinceWhen request);
  let search_term := search_term_of request in
  jobs ← scrape_single_location CONFIG scrape_jobs search_term hours_old (limit request)
            (is_remote_of request) (location request) (z_or (distance request) 50);
  let jobs :=
    if usajobs_on CONFIG then
      jobs ++ scrape_usajobs CONFIG fetch search_term hours_old (limit request)
                (is_remote_of request) (location request) (z_or (distance request) 50)
    else jobs in
  jobs ← (if is_remote_of request then validate_remote_jobs jobs else Ok jobs);
  Ok {| error := false;
        jobs := finish CONFIG request jobs;
        locations_searched := None |}.

(** A handler either returns a response or lets an exception escape. *)
Definition get_jobs (CONFIG : Config) (scrape_jobs : Scraper) (fetch : UsajobsFetch)
    (request : JobRequest) : result JobResponse :=
  Ok (try_except (get_jobs_body CONFIG scrape_jobs fetch request)
                 (fun _ => error_response)).

(** The locations [search_all] iterates over. *)
Definition locations_of (CONFIG : Config) (request : JobRequest) : list LocationSpec :=
  match cfg_locations CONFIG with
  | [] =>
      if str_truthy (location request) then
        [ {| loc_name := location request;
             loc_is_remote := None;
             loc_location := location request;
             loc_distance := Some (z_or (distance request) 50) |} ]
      else
        [ {| loc_name := Some "default";
             loc_is_remote := Some (is_remote_of request);
             loc_location := None;
             loc_distance := None |} ]
  | locations => locations
  end.

Definition tag (name : string) (j : job) : job :=
  <["_location_name" := VStr name]> j.

(** One turn of the first loop of [search_all], on the pair
    [(all_jobs, locations_searched)]. *)
Definition search_location (CONFIG : Config) (scrape_jobs : Scraper)
    (search_term : string) (hours_old : Z)
    (acc : list job * list string) (loc : LocationSpec) : list job * list string :=
  let '(all_jobs, searched) := acc in
  let name := default "unknown" (loc_name loc) in
  let is_remote := default false (loc_is_remote loc) in
  let searched := searched ++ [name] in
  try_except
    (jobs ← scrape_single_location CONFIG scrape_jobs search_term hours_old
               (cfg_results_wanted CONFIG) is_remote (loc_location loc)
               (default 50 (loc_distance loc));
     jobs ← (if is_remote then validate_remote_jobs jobs else Ok jobs);
     Ok (all_jobs ++ map (tag name) jobs, searched))
    (fun _ => (all_jobs, searched)).

(** One turn of the government-jobs loop of [search_all]. *)
Definition search_usajobs_location (CONFIG : Config) (fetch : UsajobsFetch)
    (search_term : string) (hours_old : Z)
    (all_jobs : list job) (loc : LocationSpec) : list job :=
  let name := default "unknown" (loc_name loc) in
  let is_remote := default false (loc_is_remote loc) in
  let usajobs :=
    scrape_usajobs CONFIG fetch search_term hours_old (cfg_results_wanted CONFIG)
      is_remote (loc_location loc) (default 50 (loc_distance loc)) in
  all_jobs ++ map (tag (name +:+ "_usajobs")) usajobs.

(** The [try] block of [search_all]. *)
Definition search_all_body (CONFIG : Config) (scrape_jobs : Scraper) (fetch : UsajobsFetch)
    (request : JobRequest) : result JobResponse :=
  hours_old ← parse_since_when (sinceWhen request);
  let search_term := search_term_of request in
  let locations := locations_of CONFIG request in
  let '(all_jobs, searched) :=
    fold_left (search_location CONFIG scrape_jobs search_term hours_old) locations ([], []) in
  let all_jobs :=
    if usajobs_on CONFIG
    then fold_left (search_usajobs_location CONFIG fetch search_term hours_old) locations all_jobs
    else all_jobs in
  let all_jobs := dedupe_jobs all_jobs in
  Ok {| error := false;
        jobs := finish CONFIG request all_jobs;
        locations_searched := Some searched |}.

Definition search_all (CONFIG : Config) (scrape_jobs : Scraper) (fetch : UsajobsFetch)
    (request : JobRequest) : result JobResponse :=
  Ok (try_except (search_all_body CONFIG scrape_jobs fetch request)
                 (fun _ => error_response)).

(** The status line the web framework sends: 200 when the handler returns,
    500 when an exception escapes it. *)
Definition http_status (outcome : result JobResponse) : Z :=
  match outcome with
  | Ok _ => 200
  | Raise _ => 500
  end.

(** The two routes of the service. *)
Inductive endpoint :=
| GetJobs
| SearchAll.

Definition handler_body (ep : endpoint) :=
  match ep with
  | GetJobs => get_jobs_body
  | SearchAll => search_all_body
  end.

Definition handler (ep : endpoint) :=
  match ep with
  | GetJobs => get_jobs
  | SearchAll => search_all
  end.

(** Keys never increase along the list. *)
Definition descending {A} (key : A -> Z) (l : list A) : Prop :=
  Sorted (fun a b => key b <= key a) l.

(** The elements of one key value, in the order of the list. *)
Definition with_key {A} (key : A -> Z) (s : Z) (l : list A) : list A :=
  filter (fun a => key a =? s) l.

(** The record carries the text [u] as its [job_url]. *)
Definition has_url (u : string) (j : job) : bool :=
  bool_decide (j !! "job_url" = Some (VStr u)).

(** The record has no [job_url], or [None], or the empty text. *)
Definition url_missing (j : job) : bool :=
  match j !! "job_url" with
  | None | Some VNone | Some (VStr "") => true
  | _ => false
  end.

(** The two tests of the validation loop on the location text. *)
Definition is_generic (location : string) : bool :=
  any (fun gen => Str.contains gen location) generic_locations.

Definition is_specific (location : string) : bool :=
  has_state location || Str.contains "," location.

(** A salary bound as the validation reads it, [job.get(key) or 0]. *)
Definition bound (j : job) (key : string) : value :=
  py_or (get j key) (VNum 0).

(** ** What the loops of [search_all] gather *)

Definition location_name (loc : LocationSpec) : string :=
  default "unknown" (loc_name loc).

(** The records one location adds to [all_jobs] in the first loop. *)
Definition location_records (CONFIG : Config) (scrape_jobs : Scraper)
    (search_term : string) (hours_old : Z) (loc : LocationSpec) : list job :=
  match scrape_jobs (scrape_params CONFIG search_term hours_old (cfg_results_wanted CONFIG)
                       (default false (loc_is_remote loc)) (loc_location loc)
                       (default 50 (loc_distance loc))) with
  | Raise _ => []
  | Ok found =>
      if default false (loc_is_remote loc) then
        match validate_remote_jobs found with
        | Ok kept => map (tag (location_name loc)) kept
        | Raise _ => []
        end
      else map (tag (location_name loc)) found
  end.

(** The records one location adds in the government-jobs loop. *)
Definition usajobs_records (CONFIG : Config) (fetch : UsajobsFetch)
    (search_term : string) (hours_old : Z) (loc : LocationSpec) : list job :=
  map (tag (location_name loc +:+ "_usajobs"))
      (scrape_usajobs CONFIG fetch search_term hours_old (cfg_results_wanted CONFIG)
         (default false (loc_is_remote loc)) (loc_location loc)
         (default 50 (loc_distance loc))).

(** The merged list the post-merge steps start from. *)
Definition merged_records (CONFIG : Config) (scrape_jobs : Scraper) (fetch : UsajobsFetch)
    (request : JobRequest) (hours_old : Z) : list job :=
  let locations := locations_of CONFIG request in
  flat_map (location_records CONFIG scrape_jobs (search_term_of request) hours_old) locations
  ++ (if usajobs_on CONFIG
      then flat_map (usajobs_records CONFIG fetch (search_term_of request) hours_old) locations
      else []).

(** The fields a source provides, and the test for a pipeline extension
    field (its name starts with an underscore). *)
Definition source_fields : list string :=
  ["title"; "company"; "location"; "job_url"; "description"; "date_posted";
   "min_amount"; "max_amount"; "interval"; "job_type"].

Definition extension_key (k : string) : bool := String.prefix "_" k.

(** [j'] holds under every key of [keys] what [j] holds. *)
Definition same_fields (keys : list string) (j j' : job) : Prop :=
  forall k, k ∈ keys -> j' !! k = j !! k.

(** [j'] differs from [j] on extension fields only. *)
Definition frame (j j' : job) : Prop :=
  forall k, extension_key k = false -> j' !! k = j !! k.

(** [j'] differs from the sanitized [j] on extension fields only. *)
Definition sanitized_frame (j j' : job) : Prop :=
  forall k, extension_key k = false -> j' !! k = clean_value <$> (j !! k).

(** [j] is a record one of the two external calls returned. *)
Definition from_source (scrape_jobs : Scraper) (fetch : UsajobsFetch) (j : job) : Prop :=
  (exists p l, scrape_jobs p = Ok l /\ j ∈ l) \/
  (exists q l, fetch q = Ok l /\ j ∈ l).

(** The jobs of a handler's response; none when an exception escaped. *)
Definition jobs_of (outcome : result JobResponse) : list job :=
  match outcome with
  | Ok r => jobs r
  | Raise _ => []
  end.

(** ** Sample data *)

Module Sample.

(** The built-in configuration: no file, no environment variable. *)
Definition config : Config :=
  {| cfg_sites := ["indeed"; "linkedin"; "glassdoor"; "zip_recruiter"; "google"];
     cfg_country_indeed := "USA";
     cfg_results_wanted := 50;
     cfg_linkedin_fetch_description := false;
     cfg_verbose := 1;
     cfg_usajobs_enabled := false;
     cfg_usajobs_api_key := None;
     cfg_usajobs_email := None;
     cfg_locations := [];
     cfg_exclude_keywords := [];
     cfg_include_keywords := [];
     cfg_scoring := Defaults.scoring |}.

Definition request (since : string) (remote : option bool) (lim : Z) : JobRequest :=
  {| sinceWhen := since;
     keywords := None;
     excludeKeywords := None;
     isRemote := remote;
     location := None;
     distance := Some 50;
     requireAllKeywords := false;
     limit := lim |}.

(** A record with a title, a location, a URL and the two salary bounds. *)
Definition posting (title loc url : string) (min_amount max_amount : value) : job :=
  {[ "title" := VStr title; "location" := VStr loc; "job_url" := VStr url;
     "min_amount" := min_amount; "max_amount" := max_amount ]}.

Definition no_fetch : UsajobsFetch := fun _ => Ok [].

Definition failing_scraper : Scraper := fun _ => Raise (OtherError "connection refused").

(** Two postings share the URL [u1]; one has an empty URL. *)
Definition duplicates : list job :=
  [ posting "Platform Engineer" "Remote" "u1" VNone VNone;
    posting "Site Reliability Engineer" "Remote" "" VNone VNone;
    posting "Platform Engineer II" "Austin, TX" "u1" VNone VNone ].

(** A posting as the government-jobs adapter builds it, with a parsed
    publication date. *)
Definition dated : job :=
  <["date_posted" := VDateTime (mk_datetime 2024 1 5 0 0 0)]>
    (posting "Systems Administrator" "Remote" "u9" VNone VNone).

Definition one_record (j : job) : Scraper := fun _ => Ok [j].

Definition no_scrape : Scraper := fun _ => Ok [].

(** The government-jobs integration switched on, with its credentials. *)
Definition gov_config : Config :=
  {| cfg_sites := cfg_sites config;
     cfg_country_indeed := cfg_country_indeed config;
     cfg_results_wanted := cfg_results_wanted config;
     cfg_linkedin_fetch_description := false;
     cfg_verbose := 1;
     cfg_usajobs_enabled := true;
     cfg_usajobs_api_key := Some "key";
     cfg_usajobs_email := Some "me@example.org";
     cfg_locations := [];
     cfg_exclude_keywords := [];
     cfg_include_keywords := [];
     cfg_scoring := Defaults.scoring |}.

Definition gov_fetch : UsajobsFetch := fun _ => Ok [dated].

(** One configured location that is not remote. *)
Definition city_config : Config :=
  {| cfg_sites := cfg_sites config;
     cfg_country_indeed := cfg_country_indeed config;
     cfg_results_wanted := cfg_results_wanted config;
     cfg_linkedin_fetch_description := false;
     cfg_verbose := 1;
     cfg_usajobs_enabled := false;
     cfg_usajobs_api_key := None;
     cfg_usajobs_email := None;
     cfg_locations :=
       [ {| loc_name := Some "nyc";
            loc_is_remote := Some false;
            loc_location := Some "New York, NY";
            loc_distance := Some 25 |} ];
     cfg_exclude_keywords := [];
     cfg_include_keywords := [];
     cfg_scoring := Defaults.scoring |}.

Definition new_york : job :=
  posting "Engineer" "New York, NY" "u1" VNone (VNum 120000).

(** A record of a data frame whose [job_url] cell is missing. *)
Definition unlinked (title : string) : job :=
  {[ "title" := VStr title; "job_url" := VNaN ]}.

End Sample.

(** ** The tests of the two keyword filters *)

(** The lower-cased title holds one of the lower-cased exclude keywords. *)
Definition excluded (exclude_list : list string) (j : job) : bool :=
  any (fun exc => Str.contains exc (field_lower j "title")) (map Str.lower exclude_list).

(** The title or the description holds every lower-cased keyword. *)
Definition matches_all (kws : list string) (j : job) : bool :=
  all (fun kw => Str.contains kw (field_lower j "title")
                 || Str.contains kw (field_lower j "description"))
      (map Str.lower kws).

(** ** The salary test of the remote validation *)

(** The value is a number for the comparison operators. *)
Definition numeric (v : value) : bool :=
  match num_view v with
  | Some _ => true
  | None => false
  end.

(** The record gets as far as the salary comparison: its location text is
    neither empty nor generic. *)
Definition salary_checked (j : job) : bool :=
  negb (String.eqb (remote_location j) "") && negb (is_generic (remote_location j)).

(** The record gets as far as the salary comparison with a bound that is not
    a number. *)
Definition salary_unusable (j : job) : bool :=
  salary_checked j
  && negb (numeric (bound j "min_amount") && numeric (bound j "max_amount")).

(** The two ways a record is kept. *)
Definition mark_validated (j : job) : job :=
  <["_remote_validated" := VBool true]> j.

Definition mark_high_salary (j : job) : job :=
  <["_high_salary" := VBool true]> (<["_remote_validated" := VBool false]> j).

(** ** What the government-jobs adapter asks *)

(** The queries [scrape_usajobs] can send for a search with the given remote
    flag: between 1 and 60 days, at most 500 results per page, the
    information-technology category, a radius only with a location, and no
    location for a remote search. *)
Definition admissible_query (is_remote : bool) (q : UsajobsQuery) : bool :=
  (1 <=? q_date_posted q) && (q_date_posted q <=? 60)
  && (q_results_per_page q <=? 500)
  && String.eqb (q_job_category_code q) "2210"
  && negb (String.eqb (q_user_agent q) "")
  && negb (String.eqb (q_authorization_key q) "")
  && match q_radius q with
     | Some r => negb (r =? 0) && str_truthy (q_location_name q)
     | None => true
     end
  && match q_location_name q with
     | Some l => negb is_remote && negb (String.eqb l "")
     | None => true
     end.

(** The query [scrape_usajobs] builds once it holds both credentials. *)
Definition usajobs_query (api_key email search_term : string)
    (hours_old results_wanted : Z)
    (is_remote : bool) (location : option string) (distance : Z) : UsajobsQuery :=
  let days_posted :=
    let d := Z.min (hours_old / 24) 60 in if d =? 0 then 1 else d in
  let filtered := str_truthy location && negb is_remote in
  {| q_user_agent := email;
     q_authorization_key := api_key;
     q_keyword := search_term;
     q_date_posted := days_posted;
     q_results_per_page := Z.min results_wanted 500;
     q_job_category_code := "2210";
     q_location_name := if filtered then location else None;
     q_radius :=
       if filtered && negb (distance =? 0) then Some distance else None |}.

(** The request with another remote flag, location and distance. *)
Definition with_place (request : JobRequest) (remote : option bool)
    (place : option string) (radius : option Z) : JobRequest :=
  {| sinceWhen := sinceWhen request;
     keywords := keywords request;
     excludeKeywords := excludeKeywords request;
     isRemote := remote;
     location := place;
     distance := radius;
     requireAllKeywords := requireAllKeywords request;
     limit := limit request |}.

(** The digits of a decimal numeral, most significant first. *)
Fixpoint uint_digits (d : Decimal.uint) : list Z :=
  match d with
  | Decimal.Nil => []
  | Decimal.D0 d => 0 :: uint_digits d
  | Decimal.D1 d => 1 :: uint_digits d
  | Decimal.D2 d => 2 :: uint_digits d
  | Decimal.D3 d => 3 :: uint_digits d
  | Decimal.D4 d => 4 :: uint_digits d
  | Decimal.D5 d => 5 :: uint_digits d
  | Decimal.D6 d => 6 :: uint_digits d
  | Decimal.D7 d => 7 :: uint_digits d
  | Decimal.D8 d => 8 :: uint_digits d
  | Decimal.D9 d => 9 :: uint_digits d
  end.


(** * Properties *)

(** Nothing is an element of the empty list. *)
Ltac no_elem :=
  let H := fresh "Hnil" in
  intros H; exfalso; exact (proj1 (elem_of_nil _) H).

(** ** Exclusion filter *)

Section Filter.
Context {A : Type}.

Lemma filter_twice (p : A -> bool) (l : list A) :
  filter p (filter p l) = filter p l.
Proof.
  induction l as [|x l IH]; [reflexivity|].
  rewrite filter_cons. destruct (decide (p x)) as [Hp|Hp].
  - rewrite filter_cons. destruct (decide (p x)); [|contradiction].
    now rewrite IH.
  - exact IH.
Qed.
End Filter.

(** C7.  Exclusion filter idempotence: filtering a list that was already
    filtered with the same exclude list gives the same list, for every list
    of records and every exclude list. *)
Theorem filter_jobs_idempotent (jobs : list job) (exclude_list : list string) :
  filter_jobs (filter_jobs jobs exclude_list) exclude_list
  = filter_jobs jobs exclude_list.
Proof.
  unfold filter_jobs. destruct exclude_list as [|kw kws]; [reflexivity|].
  apply filter_twice.
Qed.

(** The filter keeps exactly the records whose lower-cased title contains no
    lower-cased exclude keyword. *)
Lemma filter_jobs_elem (jobs : list job) (exclude_list : list string) (j : job) :
  j ∈ filter_jobs jobs exclude_list <->
  j ∈ jobs /\
  any (fun exc => Str.contains exc (field_lower j "title")) (map Str.lower exclude_list) = false.
Proof.
  unfold filter_jobs. destruct exclude_list as [|kw kws].
  - simpl. tauto.
  - rewrite list_elem_of_filter. rewrite Is_true_true, negb_true_iff. tauto.
Qed.

Lemma filter_jobs_subseteq (jobs : list job) (exclude_list : list string) :
  filter_jobs jobs exclude_list ⊆ jobs.
Proof. intros j Hj. now apply filter_jobs_elem in Hj. Qed.

(** ** Scoring flags *)

Lemma score_job_is_manager (sc : ScoringConfig) (j : job) :
  score_job sc j !! "_is_manager"
  = Some (VBool (any (fun kw => Str.contains kw (field_lower j "title"))
                     (default Defaults.mgmt_titles (sc_mgmt_titles sc)))).
Proof. unfold score_job. now simplify_map_eq. Qed.

Lemma score_job_is_senior_ic (sc : ScoringConfig) (j : job) :
  score_job sc j !! "_is_senior_ic"
  = Some (VBool (any (fun kw => Str.contains kw (field_lower j "title"))
                     (default Defaults.senior_ic_titles (sc_senior_ic_titles sc))
                 && negb (any (fun kw => Str.contains kw (field_lower j "title"))
                              (default Defaults.mgmt_titles (sc_mgmt_titles sc))))).
Proof. unfold score_job. now simplify_map_eq. Qed.

Lemma score_job_score (sc : ScoringConfig) (j : job) :
  score_job sc j !! "_score" = Some (VNum (job_score sc j)).
Proof. unfold score_job. now simplify_map_eq. Qed.

Lemma score_key_score_job (sc : ScoringConfig) (j : job) :
  score_key (score_job sc j) = job_score sc j.
Proof. unfold score_key, get_or. now rewrite score_job_score. Qed.

(** ** The sort *)

Section Sort.
Context {A : Type} (key : A -> Z).

Lemma insert_desc_perm (x : A) (l : list A) :
  Permutation (x :: l) (insert_desc key x l).
Proof.
  induction l as [|y l IH]; simpl; [reflexivity|].
  destruct (key y <=? key x); [reflexivity|].
  rewrite perm_swap. now apply perm_skip.
Qed.

Lemma sorted_reverse_perm (l : list A) :
  Permutation l (sorted_reverse key l).
Proof.
  induction l as [|x l IH]; simpl; [reflexivity|].
  rewrite <- insert_desc_perm. now apply perm_skip.
Qed.

Lemma insert_desc_hd (x a : A) (l : list A) :
  key x <= key a ->
  HdRel (fun a b => key b <= key a) a l ->
  HdRel (fun a b => key b <= key a) a (insert_desc key x l).
Proof.
  intros Hxa Hl. destruct l as [|y l]; simpl.
  - now constructor.
  - destruct (key y <=? key x); constructor; [assumption|].
    now inversion Hl.
Qed.

Lemma insert_desc_descending (x : A) (l : list A) :
  descending key l -> descending key (insert_desc key x l).
Proof.
  unfold descending. induction l as [|y l IH]; intros Hs; simpl.
  - repeat constructor.
  - destruct (key y <=? key x) eqn:E.
    + constructor; [assumption|]. constructor. lia.
    + inversion Hs as [|? ? Hs' Hhd]; subst.
      constructor; [now apply IH|].
      apply insert_desc_hd; [lia|assumption].
Qed.

Lemma sorted_reverse_descending (l : list A) :
  descending key (sorted_reverse key l).
Proof.
  induction l as [|x l IH]; simpl; [constructor|].
  now apply insert_desc_descending.
Qed.

Lemma with_key_cons (s : Z) (x : A) (l : list A) :
  with_key key s (x :: l)
  = if key x =? s then x :: with_key key s l else with_key key s l.
Proof.
  unfold with_key. rewrite filter_cons.
  destruct (key x =? s); destruct (decide _) as [H|H]; try reflexivity.
  - now destruct H.
  - destruct H.
Qed.

Lemma insert_desc_with_key (s : Z) (x : A) (l : list A) :
  with_key key s (insert_desc key x l) = with_key key s (x :: l).
Proof.
  induction l as [|y l IH]; simpl; [reflexivity|].
  destruct (key y <=? key x) eqn:E; [reflexivity|].
  rewrite with_key_cons, IH, !with_key_cons.
  destruct (key y =? s) eqn:Ey; destruct (key x =? s) eqn:Ex; try reflexivity.
  lia.
Qed.

Lemma sorted_reverse_stable (s : Z) (l : list A) :
  with_key key s (sorted_reverse key l) = with_key key s l.
Proof.
  induction l as [|x l IH]; simpl; [reflexivity|].
  now rewrite insert_desc_with_key, !with_key_cons, IH.
Qed.

End Sort.

(** ** Scoring and sort *)

Lemma filter_map_comm {A B} (f : A -> B) (p : B -> bool) (l : list A) :
  filter p (map f l) = map f (filter (fun a => p (f a)) l).
Proof.
  induction l as [|x l IH]; [reflexivity|].
  simpl map. rewrite !filter_cons.
  destruct (decide (p (f x))); simpl; now rewrite IH.
Qed.

Lemma score_jobs_elem (CONFIG : Config) (jobs : list job) (include_list : list string) (j : job) :
  j ∈ score_jobs CONFIG jobs include_list <->
  exists j0, j0 ∈ jobs /\ j = score_job (cfg_scoring CONFIG) j0.
Proof.
  unfold score_jobs. rewrite <- sorted_reverse_perm, list_elem_of_fmap.
  split; intros (j0 & H1 & H2); exists j0; tauto.
Qed.

(** C8.  Sort stability: the result of the scoring step is in descending
    order of [_score], and the records of any one score appear in it in the
    relative order they had in the list given to the scoring step. *)
Theorem score_jobs_stable (CONFIG : Config) (jobs : list job) (include_list : list string)
    (s : Z) :
  descending score_key (score_jobs CONFIG jobs include_list) /\
  with_key score_key s (score_jobs CONFIG jobs include_list)
  = map (score_job (cfg_scoring CONFIG))
        (filter (fun j => job_score (cfg_scoring CONFIG) j =? s) jobs).
Proof.
  split.
  - apply sorted_reverse_descending.
  - unfold score_jobs. rewrite sorted_reverse_stable.
    unfold with_key. rewrite filter_map_comm.
    f_equal. apply list_filter_iff. intros j.
    now rewrite score_key_score_job.
Qed.

(** The title is not touched by the scoring loop. *)
Lemma score_job_title (sc : ScoringConfig) (j : job) :
  field_lower (score_job sc j) "title" = field_lower j "title".
Proof.
  unfold field_lower, get_or, score_job.
  repeat (rewrite lookup_insert_ne by discriminate).
  repeat (case_match; try rewrite lookup_insert_ne by discriminate); reflexivity.
Qed.

(** C10.  For every record leaving the scoring engine, a title that matches
    the management-keyword list makes [_is_manager] true and [_is_senior_ic]
    false; the two flags are never both true. *)
Theorem manager_excludes_senior_ic (CONFIG : Config) (jobs : list job)
    (include_list : list string) (j : job) :
  j ∈ score_jobs CONFIG jobs include_list ->
  let is_mgmt_title :=
    any (fun kw => Str.contains kw (field_lower j "title"))
        (default Defaults.mgmt_titles (sc_mgmt_titles (cfg_scoring CONFIG))) in
  j !! "_is_manager" = Some (VBool is_mgmt_title) /\
  (is_mgmt_title = true -> j !! "_is_senior_ic" = Some (VBool false)) /\
  ~ (j !! "_is_manager" = Some (VBool true) /\ j !! "_is_senior_ic" = Some (VBool true)).
Proof.
  intros Hj. apply score_jobs_elem in Hj as (j0 & _ & ->).
  cbv zeta. rewrite score_job_title, score_job_is_manager, score_job_is_senior_ic.
  split; [reflexivity|].
  destruct (any _ (default Defaults.mgmt_titles _)).
  - rewrite andb_false_r. split; [reflexivity|]. intros [_ H]. discriminate.
  - split; [discriminate|]. intros [H _]. discriminate.
Qed.

Lemma manager_excludes_senior_ic_witness :
  score_job Defaults.scoring
    (Sample.posting "Senior Engineering Manager" "Remote" "u1" VNone VNone)
  !! "_is_senior_ic" = Some (VBool false).
Proof.
  apply (manager_excludes_senior_ic Sample.config
           [Sample.posting "Senior Engineering Manager" "Remote" "u1" VNone VNone] []).
  - unfold score_jobs. simpl. apply list_elem_of_here.
  - vm_compute. reflexivity.
Defined.

(** ** Lookback conversion *)

Lemma init_snoc (s : string) (c : ascii) : Str.init (s +:+ String c "") = s.
Proof.
  induction s as [|a s IH]; [reflexivity|].
  simpl. rewrite IH. destruct s; reflexivity.
Qed.

Lemma last_snoc (s : string) (c : ascii) : Str.last (s +:+ String c "") = Some c.
Proof.
  induction s as [|a s IH]; [reflexivity|].
  simpl. rewrite IH. destruct s; reflexivity.
Qed.

(** A decimal numeral is written with digits only: [int()] has nothing to
    strip from it and finds no sign. *)
Lemma lstrip_numeral (d : Decimal.uint) :
  Str.lstrip (NilEmpty.string_of_uint d) = NilEmpty.string_of_uint d.
Proof. destruct d; reflexivity. Qed.

Lemma rstrip_numeral (d : Decimal.uint) :
  Str.rstrip (NilEmpty.string_of_uint d) = NilEmpty.string_of_uint d.
Proof.
  induction d as [|d IH|d IH|d IH|d IH|d IH|d IH|d IH|d IH|d IH|d IH];
    [reflexivity|..];
    cbn [NilEmpty.string_of_uint Str.rstrip]; rewrite IH;
    destruct (NilEmpty.string_of_uint d); reflexivity.
Qed.

Lemma strip_numeral (d : Decimal.uint) :
  Str.strip (NilEmpty.string_of_uint d) = NilEmpty.string_of_uint d.
Proof. unfold Str.strip. now rewrite lstrip_numeral, rstrip_numeral. Qed.

Lemma split_sign_numeral (d : Decimal.uint) :
  Str.split_sign (NilEmpty.string_of_uint d) = (1, NilEmpty.string_of_uint d).
Proof. destruct d; reflexivity. Qed.

Lemma int_digits_numeral_after (d : Decimal.uint) :
  Str.int_digits true (NilEmpty.string_of_uint d) = Some (uint_digits d).
Proof.
  induction d as [|d IH|d IH|d IH|d IH|d IH|d IH|d IH|d IH|d IH|d IH];
    [reflexivity|..];
    cbn [NilEmpty.string_of_uint Str.int_digits uint_digits];
    match goal with
    | |- context [Str.digit ?c] =>
        let v := eval vm_compute in (Str.digit c) in change (Str.digit c) with v
    end;
    cbv iota; now rewrite IH.
Qed.

Lemma int_digits_numeral (d : Decimal.uint) :
  d <> Decimal.Nil ->
  Str.int_digits false (NilEmpty.string_of_uint d) = Some (uint_digits d).
Proof.
  intros Hd. destruct d; [contradiction|..];
    cbn [NilEmpty.string_of_uint Str.int_digits uint_digits];
    match goal with
    | |- context [Str.digit ?c] =>
        let v := eval vm_compute in (Str.digit c) in change (Str.digit c) with v
    end;
    cbv iota; now rewrite int_digits_numeral_after.
Qed.

Lemma uint_digits_length (d : Decimal.uint) :
  length (uint_digits d) = Decimal.nb_digits d.
Proof. induction d; cbn [uint_digits length Decimal.nb_digits]; congruence. Qed.

(** The digits of a numeral write the number the standard library reads
    from it. *)
Lemma fold_digits_acc (d : Decimal.uint) (acc : positive) :
  fold_left (fun a x => 10 * a + x) (uint_digits d) (Z.pos acc)
  = Z.pos (Pos.of_uint_acc d acc).
Proof.
  revert acc.
  induction d as [|d IH|d IH|d IH|d IH|d IH|d IH|d IH|d IH|d IH|d IH];
    intros acc; [reflexivity|..];
    cbn [uint_digits fold_left Pos.of_uint_acc]; rewrite <- IH; f_equal; lia.
Qed.

Lemma digits_value_numeral (d : Decimal.uint) :
  Str.digits_value (uint_digits d) = Z.of_uint d.
Proof.
  unfold Str.digits_value, Z.of_uint.
  induction d as [|d IH|d IH|d IH|d IH|d IH|d IH|d IH|d IH|d IH|d IH];
    [reflexivity|exact IH|..];
    cbn [uint_digits fold_left Pos.of_uint Z.of_N];
    rewrite <- fold_digits_acc; reflexivity.
Qed.

Lemma py_int_numeral (d : Decimal.uint) :
  d <> Decimal.Nil ->
  py_int (NilEmpty.string_of_uint d)
  = if (Decimal.nb_digits d <=? int_max_str_digits)%nat then Ok (Z.of_uint d)
    else Raise ValueError.
Proof.
  intros Hd. unfold py_int.
  rewrite strip_numeral, split_sign_numeral, (int_digits_numeral d Hd).
  rewrite uint_digits_length, digits_value_numeral.
  destruct (_ <=? _)%nat; [|reflexivity]. f_equal. lia.
Qed.

Lemma to_uint_not_nil (n : N) : N.to_uint n <> Decimal.Nil.
Proof.
  destruct n as [|p]; [discriminate|]. apply DecimalPos.Unsigned.to_uint_nonnil.
Qed.

Lemma of_uint_to_uint (n : N) : Z.of_uint (N.to_uint n) = Z.of_N n.
Proof.
  unfold Z.of_uint. f_equal. apply DecimalN.Unsigned.of_to.
Qed.

Lemma py_int_decimal (n : N) :
  py_int (Str.decimal n)
  = if (Decimal.nb_digits (N.to_uint n) <=? int_max_str_digits)%nat then Ok (Z.of_N n)
    else Raise ValueError.
Proof.
  unfold Str.decimal. rewrite (py_int_numeral _ (to_uint_not_nil n)).
  now rewrite of_uint_to_uint.
Qed.




(** ** Deduplication *)

Lemma get_url_str (j : job) (u : string) :
  get j "job_url" = VStr u <-> j !! "job_url" = Some (VStr u).
Proof.
  unfold get. destruct (j !! "job_url") as [v|]; simpl; split; congruence.
Qed.

Lemma py_eq_str (u : string) (v : value) : py_eq (VStr u) v = bool_decide (v = VStr u).
Proof.
  unfold py_eq. destruct v; simpl; try reflexivity.
  apply bool_decide_ext. split; congruence.
Qed.

Lemma dedupe_from_url (u : string) (seen : list value) (jobs : list job) :
  u <> "" ->
  filter (has_url u) (dedupe_from seen jobs)
  = if py_in_set (VStr u) seen then [] else take 1 (filter (has_url u) jobs).
Proof.
  intros Hu. revert seen. induction jobs as [|j rest IH]; intros seen.
  { simpl. now destruct (py_in_set _ _). }
  cbn [dedupe_from]. rewrite (filter_cons _ j rest).
  destruct (decide (has_url u j)) as [Hj|Hj].
  - pose proof Hj as Hget.
    apply Is_true_true, bool_decide_eq_true, get_url_str in Hget.
    rewrite Hget. cbn [py_truthy].
    assert (String.eqb u "" = false) as -> by now apply String.eqb_neq.
    cbn [negb andb].
    destruct (py_in_set (VStr u) seen) eqn:Hseen; cbn [negb].
    + rewrite IH, Hseen. reflexivity.
    + rewrite filter_cons. destruct (decide (has_url u j)); [|contradiction].
      rewrite IH. cbn [py_in_set existsb].
      rewrite py_eq_str, bool_decide_true by reflexivity. reflexivity.
  - assert (Hne : get j "job_url" <> VStr u).
    { intros E. apply Hj, Is_true_true, bool_decide_eq_true. now apply get_url_str. }
    assert (Hin : forall seen', py_in_set (VStr u) (get j "job_url" :: seen')
                                = py_in_set (VStr u) seen').
    { intros seen'. cbn [py_in_set existsb].
      now rewrite py_eq_str, bool_decide_false. }
    destruct (py_truthy (get j "job_url") && negb (py_in_set (get j "job_url") seen)).
    + rewrite filter_cons. destruct (decide (has_url u j)); [contradiction|].
      now rewrite IH, Hin.
    + destruct (negb (py_truthy (get j "job_url"))).
      * rewrite filter_cons. destruct (decide (has_url u j)); [contradiction|].
        apply IH.
      * apply IH.
Qed.

Lemma url_missing_falsy (j : job) : url_missing j = true -> py_truthy (get j "job_url") = false.
Proof.
  unfold url_missing, get.
  destruct (j !! "job_url") as [[| | | |s|]|]; simpl; try discriminate; try reflexivity.
  destruct s; [reflexivity|discriminate].
Qed.

Lemma dedupe_from_missing (seen : list value) (jobs : list job) :
  filter url_missing (dedupe_from seen jobs) = filter url_missing jobs.
Proof.
  revert seen. induction jobs as [|j rest IH]; intros seen; [reflexivity|].
  cbn [dedupe_from]. rewrite (filter_cons _ j rest).
  destruct (decide (url_missing j)) as [Hj|Hj].
  - pose proof Hj as Hj'. apply Is_true_true in Hj'.
    rewrite (url_missing_falsy _ Hj').
    cbn [andb negb]. rewrite filter_cons.
    destruct (decide (url_missing j)); [|contradiction]. now rewrite IH.
  - destruct (_ && _); [|destruct (negb _)];
      rewrite ?filter_cons; try (destruct (decide (url_missing j)); [contradiction|]);
      apply IH.
Qed.

Lemma dedupe_from_sublist (seen : list value) (jobs : list job) :
  dedupe_from seen jobs `sublist_of` jobs.
Proof.
  revert seen. induction jobs as [|j rest IH]; intros seen; [constructor|].
  cbn [dedupe_from].
  destruct (_ && _); [|destruct (negb _)];
    first [apply sublist_skip, IH | apply sublist_cons, IH].
Qed.

(** Among the records that carry one and the same non-empty text as
    [job_url], only the first of the input survives; the records whose
    [job_url] is absent, [None] or the empty text all survive; and the
    survivors keep the order of the input. *)
Lemma dedupe_jobs_first_per_url (jobs : list job) (u : string) :
  u <> "" ->
  filter (has_url u) (dedupe_jobs jobs) = take 1 (filter (has_url u) jobs) /\
  filter url_missing (dedupe_jobs jobs) = filter url_missing jobs /\
  dedupe_jobs jobs `sublist_of` jobs.
Proof.
  intros Hu. unfold dedupe_jobs. split; [|split].
  - now rewrite dedupe_from_url.
  - apply dedupe_from_missing.
  - apply dedupe_from_sublist.
Qed.

Lemma dedupe_jobs_first_per_url_witness :
  "u1" <> "" /\
  filter (has_url "u1") (dedupe_jobs Sample.duplicates)
  = take 1 (filter (has_url "u1") Sample.duplicates).
Proof.
  split; [discriminate|].
  apply (dedupe_jobs_first_per_url Sample.duplicates "u1"). discriminate.
Defined.

Example dedupe_jobs_duplicates :
  dedupe_jobs Sample.duplicates
  = [ Sample.posting "Platform Engineer" "Remote" "u1" VNone VNone;
      Sample.posting "Site Reliability Engineer" "Remote" "" VNone VNone ].
Proof. vm_compute. reflexivity. Qed.

(** C2.  The code departs from the claim when the [job_url] is the NaN of
    a missing cell: NaN is true, and the set finds the one NaN object again,
    so of two records without a URL the second is dropped like a
    duplicate. *)
Theorem dedupe_jobs_drops_second_missing_url :
  dedupe_jobs [Sample.unlinked "Platform Engineer"; Sample.unlinked "Data Engineer"]
  = [Sample.unlinked "Platform Engineer"].
Proof. vm_compute. reflexivity. Qed.

(** ** Exceptions: the adapter and the request boundary *)

(** C3, as stated, fails: when the external call raises,
    [scrape_single_location] does not return the empty list. *)
Lemma scrape_single_location_not_empty_on_error :
  scrape_single_location Sample.config Sample.failing_scraper
    "software engineer" 24 10 false None 50 <> Ok [].
Proof. vm_compute. discriminate. Qed.

Lemma scrape_single_location_raises (CONFIG : Config) (scrape_jobs : Scraper)
    (search_term : string) (hours_old results_wanted : Z)
    (is_remote : bool) (location : option string) (distance : Z) (e : exn) :
  scrape_jobs (scrape_params CONFIG search_term hours_old results_wanted
                 is_remote location distance) = Raise e ->
  scrape_single_location CONFIG scrape_jobs search_term hours_old results_wanted
    is_remote location distance = Raise e.
Proof. intros H. unfold scrape_single_location. now rewrite H. Qed.

(** C3, amended.  When the external scraping call raises,
    [scrape_single_location] raises the same exception to its caller.  The
    fan-out loop catches it: the location is recorded as searched and adds
    no record.  The single-location handler catches it at the request
    boundary and returns the error response. *)
Theorem scrape_failure_handled_by_callers (CONFIG : Config) (scrape_jobs : Scraper)
    (fetch : UsajobsFetch) (e : exn) :
  (forall search_term hours_old results_wanted is_remote location distance,
      scrape_jobs (scrape_params CONFIG search_term hours_old results_wanted
                     is_remote location distance) = Raise e ->
      scrape_single_location CONFIG scrape_jobs search_term hours_old results_wanted
        is_remote location distance = Raise e) /\
  (forall search_term hours_old all_jobs searched loc,
      scrape_jobs (scrape_params CONFIG search_term hours_old (cfg_results_wanted CONFIG)
                     (default false (loc_is_remote loc)) (loc_location loc)
                     (default 50 (loc_distance loc))) = Raise e ->
      search_location CONFIG scrape_jobs search_term hours_old (all_jobs, searched) loc
      = (all_jobs, searched ++ [default "unknown" (loc_name loc)])) /\
  (forall request hours_old,
      parse_since_when (sinceWhen request) = Ok hours_old ->
      scrape_jobs (scrape_params CONFIG (search_term_of request) hours_old (limit request)
                     (is_remote_of request) (location request)
                     (z_or (distance request) 50)) = Raise e ->
      get_jobs CONFIG scrape_jobs fetch request = Ok error_response).
Proof.
  split; [|split].
  - intros. now apply scrape_single_location_raises.
  - intros term hours all_jobs searched loc H.
    unfold search_location.
    now rewrite (scrape_single_location_raises _ _ _ _ _ _ _ _ _ H).
  - intros request hours Hparse H.
    unfold get_jobs, get_jobs_body. rewrite Hparse. cbn [mbind result_bind].
    now rewrite (scrape_single_location_raises _ _ _ _ _ _ _ _ _ H).
Qed.

Lemma scrape_failure_handled_by_callers_witness :
  scrape_single_location Sample.config Sample.failing_scraper
    "software engineer" 24 10 false None 50
  = Raise (OtherError "connection refused").
Proof.
  apply (scrape_failure_handled_by_callers Sample.config Sample.failing_scraper
           Sample.no_fetch (OtherError "connection refused")).
  reflexivity.
Defined.

(** C6.  Request boundary: whenever the pipeline of a handler raises, the
    handler returns the response with [error = true] and no job, and the
    status is the success status; no exception escapes a handler. *)
Theorem handler_error_response (ep : endpoint) (CONFIG : Config) (scrape_jobs : Scraper)
    (fetch : UsajobsFetch) (request : JobRequest) (e : exn) :
  handler_body ep CONFIG scrape_jobs fetch request = Raise e ->
  handler ep CONFIG scrape_jobs fetch request = Ok error_response /\
  error error_response = true /\
  jobs error_response = [] /\
  http_status (handler ep CONFIG scrape_jobs fetch request) = 200.
Proof.
  intros H. destruct ep; cbn [handler handler_body] in *;
    unfold get_jobs, search_all; rewrite H; repeat split.
Qed.

Lemma handler_error_response_witness :
  handler GetJobs Sample.config Sample.failing_scraper Sample.no_fetch
    (Sample.request "1d" None 10) = Ok error_response.
Proof.
  apply (handler_error_response GetJobs Sample.config Sample.failing_scraper
           Sample.no_fetch (Sample.request "1d" None 10)
           (OtherError "connection refused")).
  reflexivity.
Defined.

(** No request makes a handler raise. *)
Lemma handler_returns (ep : endpoint) (CONFIG : Config) (scrape_jobs : Scraper)
    (fetch : UsajobsFetch) (request : JobRequest) :
  http_status (handler ep CONFIG scrape_jobs fetch request) = 200.
Proof. destruct ep; reflexivity. Qed.

(** ** Remote validation *)

(** A record whose location text is empty or holds a generic marker is kept,
    whatever its salary fields hold. *)
Lemma validate_generic_kept (threshold : Z) (j : job) :
  remote_location j = "" \/ is_generic (remote_location j) = true ->
  validate_remote_job threshold j = Ok (Some (<["_remote_validated" := VBool true]> j)).
Proof.
  unfold validate_remote_job, is_generic. intros [H|H].
  - now rewrite H.
  - rewrite H. now destruct (String.eqb _ _).
Qed.

Lemma is_specific_nonempty (location : string) :
  is_specific location = true -> location <> "".
Proof. intros H ->. vm_compute in H. discriminate. Qed.

(** With finite salary bounds [a] and [b], a record with a specific location
    and no generic marker is kept exactly when [max a b] reaches the
    threshold, and then carries [_high_salary]. *)
Lemma validate_specific_finite (threshold : Z) (j : job) (a b : Z) :
  is_generic (remote_location j) = false ->
  is_specific (remote_location j) = true ->
  num_view (bound j "min_amount") = Some (Fin a) ->
  num_view (bound j "max_amount") = Some (Fin b) ->
  validate_remote_job threshold j
  = Ok (if threshold <=? Z.max a b
        then Some (<["_high_salary" := VBool true]>
                     (<["_remote_validated" := VBool false]> j))
        else None).
Proof.
  intros Hgen Hspec Ha Hb.
  pose proof (is_specific_nonempty _ Hspec) as Hne.
  apply String.eqb_neq in Hne.
  unfold validate_remote_job. fold (is_generic (remote_location j)).
  fold (bound j "min_amount") (bound j "max_amount").
  fold (is_specific (remote_location j)).
  rewrite Hne, Hgen, Hspec.
  unfold py_max, py_gt. rewrite Ha, Hb. cbn [mbind result_bind num_gt].
  destruct (a <? b) eqn:E; unfold py_ge_int; rewrite ?Ha, ?Hb; cbn [mbind result_bind num_ge].
  - replace (Z.max a b) with b by lia. now destruct (threshold <=? b).
  - replace (Z.max a b) with a by lia. now destruct (threshold <=? a).
Qed.

(** The three records of the specification's example. *)
Example validate_new_york_120000 :
  validate_remote_jobs [Sample.posting "Engineer" "New York, NY" "u1" VNone (VNum 120000)]
  = Ok [].
Proof. vm_compute. reflexivity. Qed.

Example validate_new_york_160000 :
  exists j,
    validate_remote_jobs [Sample.posting "Engineer" "New York, NY" "u1" VNone (VNum 160000)]
    = Ok [j] /\ j !! "_high_salary" = Some (VBool true).
Proof. eexists. split; vm_compute; reflexivity. Qed.

Example validate_remote_kept :
  exists j,
    validate_remote_jobs [Sample.posting "Engineer" "Remote" "u1" VNone VNone]
    = Ok [j] /\ j !! "_remote_validated" = Some (VBool true).
Proof. eexists. split; vm_compute; reflexivity. Qed.

(** C1.  The code departs from the claim when the lower bound is the float
    NaN, which is how a data frame holds a missing cell: the record located
    in "New York, NY" with a maximum salary of 160,000 is dropped, because
    [max(nan, 160000)] is [nan] and [nan >= 150000] is false. *)
Theorem validate_remote_drops_high_salary_after_nan :
  validate_remote_jobs [Sample.posting "Engineer" "New York, NY" "u1" VNaN (VNum 160000)]
  = Ok [].
Proof. vm_compute. reflexivity. Qed.

(** ** Frame: which fields the pipeline writes *)

Lemma frame_refl (j : job) : frame j j.
Proof. now intros k _. Qed.

Lemma frame_trans (j1 j2 j3 : job) : frame j1 j2 -> frame j2 j3 -> frame j1 j3.
Proof. intros H12 H23 k Hk. now rewrite H23, H12. Qed.

Lemma frame_insert (j : job) (key : string) (v : value) :
  extension_key key = true -> frame j (<[key := v]> j).
Proof.
  intros Hkey k Hk. apply lookup_insert_ne. intros ->. congruence.
Qed.

Lemma frame_sanitized (j1 j2 j3 : job) :
  frame j1 j2 -> sanitized_frame j2 j3 -> sanitized_frame j1 j3.
Proof. intros H12 H23 k Hk. now rewrite H23, H12. Qed.

Lemma tag_frame (name : string) (j : job) : frame j (tag name j).
Proof. now apply frame_insert. Qed.

Lemma score_job_frame (sc : ScoringConfig) (j : job) : frame j (score_job sc j).
Proof.
  unfold score_job.
  repeat (eapply frame_trans; [|now apply frame_insert]).
  repeat case_match;
    repeat (eapply frame_trans; [|now apply frame_insert]); apply frame_refl.
Qed.

Lemma validate_remote_job_frame (threshold : Z) (j j' : job) :
  validate_remote_job threshold j = Ok (Some j') -> frame j j'.
Proof.
  unfold validate_remote_job. intros Hres.
  destruct (String.eqb (remote_location j) "").
  { inversion Hres. now apply frame_insert. }
  destruct (any _ generic_locations).
  { inversion Hres. now apply frame_insert. }
  destruct (py_max _ _) as [salary|]; cbn [mbind result_bind] in Hres; [|discriminate].
  destruct (py_ge_int salary threshold) as [[|]|];
    cbn [mbind result_bind] in Hres; [| |discriminate].
  - inversion Hres.
    eapply frame_trans; [|now apply frame_insert]. now apply frame_insert.
  - destruct (_ || _); inversion Hres. now apply frame_insert.
Qed.

Lemma validate_remote_jobs_elem (threshold : Z) (jobs validated : list job) (j' : job) :
  validate_remote_jobs_with threshold jobs = Ok validated ->
  j' ∈ validated ->
  exists j, j ∈ jobs /\ validate_remote_job threshold j = Ok (Some j').
Proof.
  revert validated. induction jobs as [|j rest IH]; intros validated H Hin.
  - inversion H; subst. now apply elem_of_nil in Hin.
  - cbn [validate_remote_jobs_with] in H.
    destruct (validate_remote_job threshold j) as [kept|] eqn:Ej; [|discriminate].
    cbn [mbind result_bind] in H.
    destruct (validate_remote_jobs_with threshold rest) as [vs|] eqn:Er; [|discriminate].
    cbn [mbind result_bind] in H. inversion H; subst; clear H.
    destruct kept as [j1|].
    + apply elem_of_cons in Hin as [->|Hin].
      * exists j. split; [apply list_elem_of_here|assumption].
      * destruct (IH vs eq_refl Hin) as (j0 & H0 & H1).
        exists j0. split; [now apply list_elem_of_further|assumption].
    + destruct (IH vs eq_refl Hin) as (j0 & H0 & H1).
      exists j0. split; [now apply list_elem_of_further|assumption].
Qed.

Lemma clean_job_lookup (j : job) (k : string) :
  (clean_value <$> j) !! k = clean_value <$> (j !! k).
Proof. apply lookup_fmap. Qed.

Lemma py_slice_to_subseteq {A} (l : list A) (limit : Z) : py_slice_to l limit ⊆ l.
Proof.
  unfold py_slice_to. intros x. destruct (0 <=? limit); apply subseteq_take.
Qed.

Lemma and_mode_filter_subseteq (jobs : list job) (kws : list string) :
  and_mode_filter jobs kws ⊆ jobs.
Proof.
  unfold and_mode_filter. intros j Hj. now apply list_elem_of_filter in Hj.
Qed.

(** Every record leaving the common steps is the sanitized, scored copy of a
    record that entered them. *)
Lemma finish_frame (CONFIG : Config) (request : JobRequest) (merged : list job) (j' : job) :
  j' ∈ finish CONFIG request merged ->
  exists j, j ∈ merged /\ sanitized_frame j j'.
Proof.
  unfold finish. intros H.
  apply py_slice_to_subseteq in H.
  unfold clean_job_data in H. apply list_elem_of_fmap in H as (j1 & -> & H).
  apply score_jobs_elem in H as (j0 & H & ->).
  assert (Hin : j0 ∈ merged).
  { destruct (requireAllKeywords request && list_truthy (keywords request)).
    - apply and_mode_filter_subseteq in H. now apply filter_jobs_subseteq in H.
    - now apply filter_jobs_subseteq in H. }
  exists j0. split; [assumption|].
  intros k Hk. rewrite clean_job_lookup. now rewrite (score_job_frame _ j0 k Hk).
Qed.

(** ** The loops of the fan-out *)

Lemma search_location_records (CONFIG : Config) (scrape_jobs : Scraper)
    (search_term : string) (hours_old : Z)
    (all_jobs : list job) (searched : list string) (loc : LocationSpec) :
  search_location CONFIG scrape_jobs search_term hours_old (all_jobs, searched) loc
  = (all_jobs ++ location_records CONFIG scrape_jobs search_term hours_old loc,
     searched ++ [location_name loc]).
Proof.
  unfold search_location, location_records, scrape_single_location, location_name.
  destruct (scrape_jobs _) as [found|e]; cbn [mbind result_bind try_except].
  - destruct (default false (loc_is_remote loc)).
    + destruct (validate_remote_jobs found) as [kept|e];
        cbn [mbind result_bind try_except]; [reflexivity|].
      now rewrite app_nil_r.
    + reflexivity.
  - now rewrite app_nil_r.
Qed.

Lemma search_loop (CONFIG : Config) (scrape_jobs : Scraper)
    (search_term : string) (hours_old : Z)
    (locations : list LocationSpec) (all_jobs : list job) (searched : list string) :
  fold_left (search_location CONFIG scrape_jobs search_term hours_old) locations
            (all_jobs, searched)
  = (all_jobs ++ flat_map (location_records CONFIG scrape_jobs search_term hours_old) locations,
     searched ++ map location_name locations).
Proof.
  revert all_jobs searched.
  induction locations as [|loc locations IH]; intros all_jobs searched.
  - cbn. now rewrite !app_nil_r.
  - cbn [fold_left flat_map map].
    rewrite search_location_records, IH. f_equal; now rewrite <- app_assoc.
Qed.

Lemma usajobs_loop (CONFIG : Config) (fetch : UsajobsFetch)
    (search_term : string) (hours_old : Z)
    (locations : list LocationSpec) (all_jobs : list job) :
  fold_left (search_usajobs_location CONFIG fetch search_term hours_old) locations all_jobs
  = all_jobs ++ flat_map (usajobs_records CONFIG fetch search_term hours_old) locations.
Proof.
  revert all_jobs. induction locations as [|loc locations IH]; intros all_jobs.
  - cbn. now rewrite app_nil_r.
  - cbn [fold_left flat_map]. rewrite IH. unfold search_usajobs_location.
    fold (location_name loc).
    fold (usajobs_records CONFIG fetch search_term hours_old loc).
    now rewrite <- app_assoc.
Qed.

Lemma search_all_body_merged (CONFIG : Config) (scrape_jobs : Scraper) (fetch : UsajobsFetch)
    (request : JobRequest) (hours_old : Z) :
  parse_since_when (sinceWhen request) = Ok hours_old ->
  search_all_body CONFIG scrape_jobs fetch request
  = Ok {| error := false;
          jobs := finish CONFIG request
                    (dedupe_jobs (merged_records CONFIG scrape_jobs fetch request hours_old));
          locations_searched :=
            Some (map location_name (locations_of CONFIG request)) |}.
Proof.
  intros Hparse. unfold search_all_body, merged_records.
  rewrite Hparse. cbn [mbind result_bind].
  rewrite search_loop. cbn [app].
  destruct (usajobs_on CONFIG).
  - now rewrite usajobs_loop.
  - now rewrite app_nil_r.
Qed.

(** C5, as stated, fails: a request that specifies remote gets back, from a
    configured location that is not remote, a record that remote validation
    drops. *)
Lemma search_all_remote_request_not_validated :
  isRemote (Sample.request "1d" (Some true) 10) = Some true /\
  exists j,
    j ∈ jobs_of (search_all Sample.city_config (Sample.one_record Sample.new_york)
                   Sample.no_fetch (Sample.request "1d" (Some true) 10)) /\
    validate_remote_job 150000 j = Ok None.
Proof.
  split; [reflexivity|].
  eexists. split.
  - vm_compute. apply list_elem_of_here.
  - vm_compute. reflexivity.
Qed.

(** C5, amended.  In the fan-out, remote validation is a step of the
    per-location loop, not of the merged list: a location's records from the
    multi-site adapter are validated exactly when that location's own
    [is_remote] flag is set, then tagged and appended; the government-jobs
    records are appended as the adapter returned them.  The merged list then
    goes through deduplication, exclusion filter, AND-mode filter, scoring
    and sort, sanitization and truncation, in this order. *)
Theorem search_all_steps (CONFIG : Config) (scrape_jobs : Scraper) (fetch : UsajobsFetch)
    (request : JobRequest) (hours_old : Z) :
  parse_since_when (sinceWhen request) = Ok hours_old ->
  let merged := merged_records CONFIG scrape_jobs fetch request hours_old in
  let deduped := dedupe_jobs merged in
  let filtered := filter_jobs deduped (exclude_list_of CONFIG request) in
  let matched :=
    if requireAllKeywords request && list_truthy (keywords request)
    then and_mode_filter filtered (default [] (keywords request))
    else filtered in
  let scored := score_jobs CONFIG matched (cfg_include_keywords CONFIG) in
  let cleaned := clean_job_data scored in
  search_all CONFIG scrape_jobs fetch request
  = Ok {| error := false;
          jobs := py_slice_to cleaned (limit request);
          locations_searched := Some (map location_name (locations_of CONFIG request)) |}
  /\
  forall loc found,
    scrape_jobs (scrape_params CONFIG (search_term_of request) hours_old
                   (cfg_results_wanted CONFIG) (default false (loc_is_remote loc))
                   (loc_location loc) (default 50 (loc_distance loc))) = Ok found ->
    location_records CONFIG scrape_jobs (search_term_of request) hours_old loc
    = if default false (loc_is_remote loc)
      then match validate_remote_jobs found with
           | Ok kept => map (tag (location_name loc)) kept
           | Raise _ => []
           end
      else map (tag (location_name loc)) found.
Proof.
  intros Hparse. cbv zeta. split.
  - unfold search_all. rewrite (search_all_body_merged _ _ _ _ _ Hparse).
    reflexivity.
  - intros loc found Hfound. unfold location_records. now rewrite Hfound.
Qed.

Lemma search_all_steps_witness :
  exists resp,
    search_all Sample.city_config (Sample.one_record Sample.new_york) Sample.no_fetch
      (Sample.request "1d" (Some true) 10) = Ok resp /\
    locations_searched resp = Some ["nyc"].
Proof.
  eexists. split.
  - apply (search_all_steps Sample.city_config (Sample.one_record Sample.new_york)
             Sample.no_fetch (Sample.request "1d" (Some true) 10) 24).
    reflexivity.
  - reflexivity.
Defined.

(** ** Frame of the whole pipeline *)

Lemma scrape_usajobs_source (CONFIG : Config) (fetch : UsajobsFetch)
    (search_term : string) (hours_old results_wanted : Z)
    (is_remote : bool) (location : option string) (distance : Z) (j : job) :
  j ∈ scrape_usajobs CONFIG fetch search_term hours_old results_wanted
        is_remote location distance ->
  exists q l, fetch q = Ok l /\ j ∈ l.
Proof.
  unfold scrape_usajobs.
  destruct (cfg_usajobs_api_key CONFIG) as [api_key|];
    [|no_elem].
  destruct (cfg_usajobs_email CONFIG) as [email|];
    [|no_elem].
  destruct (_ || _); [no_elem|].
  match goal with |- context [fetch ?q] => destruct (fetch q) as [l|e] eqn:E end;
    cbn [try_except]; intros H.
  - eauto.
  - now apply elem_of_nil in H.
Qed.

Lemma location_records_source (CONFIG : Config) (scrape_jobs : Scraper) (fetch : UsajobsFetch)
    (search_term : string) (hours_old : Z) (loc : LocationSpec) (j' : job) :
  j' ∈ location_records CONFIG scrape_jobs search_term hours_old loc ->
  exists j, from_source scrape_jobs fetch j /\ frame j j'.
Proof.
  unfold location_records.
  match goal with |- context [scrape_jobs ?p] => destruct (scrape_jobs p) as [found|e] eqn:E end;
    [|no_elem].
  destruct (default false (loc_is_remote loc)).
  - destruct (validate_remote_jobs found) as [kept|e] eqn:Ev;
      [|no_elem].
    intros H. apply list_elem_of_fmap in H as (j1 & -> & H).
    destruct (validate_remote_jobs_elem _ _ _ _ Ev H) as (j0 & Hin & Hval).
    exists j0. split.
    + left. eauto.
    + eapply frame_trans; [now apply (validate_remote_job_frame _ _ _ Hval)|].
      apply tag_frame.
  - intros H. apply list_elem_of_fmap in H as (j0 & -> & H).
    exists j0. split; [left; eauto|apply tag_frame].
Qed.

Lemma elem_of_flat_map {A B} (f : A -> list B) (l : list A) (y : B) :
  y ∈ flat_map f l <-> exists x, x ∈ l /\ y ∈ f x.
Proof.
  rewrite list_elem_of_In, in_flat_map.
  split; intros (x & H1 & H2); exists x; split;
    first [now apply list_elem_of_In | now apply list_elem_of_In in H1
          | now apply list_elem_of_In in H2].
Qed.

Lemma merged_records_source (CONFIG : Config) (scrape_jobs : Scraper) (fetch : UsajobsFetch)
    (request : JobRequest) (hours_old : Z) (j' : job) :
  j' ∈ merged_records CONFIG scrape_jobs fetch request hours_old ->
  exists j, from_source scrape_jobs fetch j /\ frame j j'.
Proof.
  unfold merged_records. rewrite elem_of_app. intros [H|H].
  - apply elem_of_flat_map in H as (loc & _ & H).
    now apply (location_records_source _ _ fetch) in H.
  - destruct (usajobs_on CONFIG); [|now apply elem_of_nil in H].
    apply elem_of_flat_map in H as (loc & _ & H).
    unfold usajobs_records in H. apply list_elem_of_fmap in H as (j0 & -> & H).
    apply scrape_usajobs_source in H.
    exists j0. split; [now right|apply tag_frame].
Qed.

Lemma search_all_body_frame (CONFIG : Config) (scrape_jobs : Scraper) (fetch : UsajobsFetch)
    (request : JobRequest) (resp : JobResponse) (j' : job) :
  search_all_body CONFIG scrape_jobs fetch request = Ok resp ->
  j' ∈ jobs resp ->
  exists j, from_source scrape_jobs fetch j /\ sanitized_frame j j'.
Proof.
  destruct (parse_since_when (sinceWhen request)) as [hours_old|e] eqn:Hparse.
  - rewrite (search_all_body_merged _ _ _ _ _ Hparse).
    intros Hresp Hin. inversion Hresp; subst resp; clear Hresp. cbn [jobs] in Hin.
    apply finish_frame in Hin as (j1 & Hin & Hclean).
    apply (sublist_subseteq _ _ (dedupe_from_sublist _ _)) in Hin.
    apply merged_records_source in Hin as (j0 & Hsrc & Hframe).
    exists j0. split; [assumption|]. now apply (frame_sanitized j0 j1 j').
  - unfold search_all_body. rewrite Hparse. discriminate.
Qed.

Lemma get_jobs_body_frame (CONFIG : Config) (scrape_jobs : Scraper) (fetch : UsajobsFetch)
    (request : JobRequest) (resp : JobResponse) (j' : job) :
  get_jobs_body CONFIG scrape_jobs fetch request = Ok resp ->
  j' ∈ jobs resp ->
  exists j, from_source scrape_jobs fetch j /\ sanitized_frame j j'.
Proof.
  unfold get_jobs_body, scrape_single_location.
  destruct (parse_since_when _) as [hours_old|e]; cbn [mbind result_bind]; [|discriminate].
  match goal with |- context [scrape_jobs ?p] => destruct (scrape_jobs p) as [found|e] eqn:E end;
    cbn [mbind result_bind]; [|discriminate].
  set (merged := if usajobs_on CONFIG then _ else _).
  assert (Hmerged : forall j, j ∈ merged -> from_source scrape_jobs fetch j).
  { intros j Hj. subst merged. destruct (usajobs_on CONFIG).
    - apply elem_of_app in Hj as [Hj|Hj]; [left; eauto|].
      right. now apply scrape_usajobs_source in Hj.
    - left. eauto. }
  destruct (is_remote_of request).
  - destruct (validate_remote_jobs merged) as [kept|e'] eqn:Ev;
      cbn [mbind result_bind]; [|discriminate].
    intros Hresp Hin. inversion Hresp; subst resp; clear Hresp. cbn [jobs] in Hin.
    apply finish_frame in Hin as (j1 & Hin & Hclean).
    destruct (validate_remote_jobs_elem _ _ _ _ Ev Hin) as (j0 & Hin0 & Hval).
    exists j0. split; [now apply Hmerged|].
    apply (frame_sanitized j0 j1 j'); [|assumption].
    now apply (validate_remote_job_frame _ _ _ Hval).
  - cbn [mbind result_bind].
    intros Hresp Hin. inversion Hresp; subst resp; clear Hresp. cbn [jobs] in Hin.
    apply finish_frame in Hin as (j0 & Hin & Hclean).
    exists j0. split; [now apply Hmerged|assumption].
Qed.

(** C4, as stated, fails: the record the government-jobs adapter built with
    a parsed publication date comes back with [date_posted] rewritten. *)
Lemma sanitization_changes_date_posted :
  ~ (forall j',
        j' ∈ jobs_of (get_jobs Sample.gov_config Sample.no_scrape Sample.gov_fetch
                        (Sample.request "1d" None 10)) ->
        exists j,
          from_source Sample.no_scrape Sample.gov_fetch j /\
          same_fields source_fields j j').
Proof.
  intros Hall.
  assert (exists r,
             jobs_of (get_jobs Sample.gov_config Sample.no_scrape Sample.gov_fetch
                        (Sample.request "1d" None 10)) = [r] /\
             r !! "date_posted" = Some (VStr "2024-01-05T00:00:00"))
    as (r & Hr & Hdate).
  { eexists. split; vm_compute; reflexivity. }
  rewrite Hr in Hall.
  destruct (Hall r (list_elem_of_here _ _)) as (j & Hsrc & Hsame).
  assert (j = Sample.dated) as ->.
  { destruct Hsrc as [(p & l & Hl & Hin)|(q & l & Hl & Hin)].
    - inversion Hl; subst l. now apply elem_of_nil in Hin.
    - inversion Hl; subst l. now apply list_elem_of_singleton in Hin. }
  specialize (Hsame "date_posted").
  rewrite Hdate in Hsame.
  assert (Hk : "date_posted" ∈ source_fields).
  { unfold source_fields. repeat first [apply list_elem_of_here | apply list_elem_of_further]. }
  specialize (Hsame Hk). vm_compute in Hsame. discriminate.
Qed.

(** C4, amended.  Every record of a response comes from a record one of the
    sources returned, and under every key that does not start with an
    underscore it holds the sanitized value of that source record: the value
    itself, except that a NaN has become the missing marker and a datetime
    its ISO text.  No such key is added or removed. *)
Theorem response_fields_sanitized_source (ep : endpoint) (CONFIG : Config)
    (scrape_jobs : Scraper) (fetch : UsajobsFetch) (request : JobRequest)
    (resp : JobResponse) (j' : job) :
  handler ep CONFIG scrape_jobs fetch request = Ok resp ->
  j' ∈ jobs resp ->
  exists j,
    from_source scrape_jobs fetch j /\
    forall k, extension_key k = false -> j' !! k = clean_value <$> (j !! k).
Proof.
  intros Hresp Hin.
  destruct ep; cbn [handler] in Hresp; unfold get_jobs, search_all in Hresp;
    inversion Hresp; subst resp; clear Hresp.
  - destruct (get_jobs_body CONFIG scrape_jobs fetch request) as [r|e] eqn:E;
      cbn [try_except] in Hin.
    + exact (get_jobs_body_frame _ _ _ _ _ _ E Hin).
    + now apply elem_of_nil in Hin.
  - destruct (search_all_body CONFIG scrape_jobs fetch request) as [r|e] eqn:E;
      cbn [try_except] in Hin.
    + exact (search_all_body_frame _ _ _ _ _ _ E Hin).
    + now apply elem_of_nil in Hin.
Qed.

Lemma response_fields_sanitized_source_witness :
  exists j,
    from_source Sample.no_scrape Sample.gov_fetch j /\
    forall k, extension_key k = false ->
      hd ∅ (jobs_of (get_jobs Sample.gov_config Sample.no_scrape Sample.gov_fetch
                       (Sample.request "1d" None 10))) !! k
      = clean_value <$> (j !! k).
Proof.
  apply (response_fields_sanitized_source GetJobs Sample.gov_config
           Sample.no_scrape Sample.gov_fetch (Sample.request "1d" None 10)
           (try_except (get_jobs_body Sample.gov_config Sample.no_scrape
                          Sample.gov_fetch (Sample.request "1d" None 10))
                       (fun _ => error_response))).
  - reflexivity.
  - vm_compute. apply list_elem_of_here.
Defined.

(** ** The handlers on sample requests *)

Example parse_since_when_samples :
  parse_since_when "3d" = Ok 72 /\
  parse_since_when "2w" = Ok 336 /\
  parse_since_when "d" = Raise ValueError /\
  parse_since_when "" = Raise ValueError.
Proof. repeat split. Qed.

(** A malformed lookback text is answered by the error response. *)
Example get_jobs_bad_lookback :
  get_jobs Sample.config (Sample.one_record Sample.new_york) Sample.no_fetch
    (Sample.request "d" None 10) = Ok error_response.
Proof. reflexivity. Qed.

(** A salary given as text makes the validation raise a [TypeError], which
    the request boundary turns into the error response. *)
Example get_jobs_text_salary :
  get_jobs Sample.config
    (Sample.one_record (Sample.posting "Engineer" "Austin, TX" "u1" VNone (VStr "160k")))
    Sample.no_fetch (Sample.request "1d" (Some true) 10) = Ok error_response.
Proof. vm_compute. reflexivity. Qed.

(** In the single-location handler the remote request of the earlier sample
    loses the New York record. *)
Example get_jobs_remote_validates :
  jobs_of (get_jobs Sample.config (Sample.one_record Sample.new_york) Sample.no_fetch
             (Sample.request "1d" (Some true) 10)) = [].
Proof. vm_compute. reflexivity. Qed.

(** AND mode: a record that mentions only one of the two keywords is left
    out, a record that mentions both is kept. *)
Example and_mode_filter_sample :
  let only_one : job :=
    {[ "title" := VStr "DevOps Engineer"; "description" := VStr "Kubernetes clusters" ]} in
  let both : job :=
    {[ "title" := VStr "DevOps Engineer";
       "description" := VStr "Kubernetes and Terraform" ]} in
  and_mode_filter [only_one; both] ["kubernetes"; "terraform"] = [both].
Proof. vm_compute. reflexivity. Qed.

(** * Further properties of the pipeline *)

(** ** Texts *)

Lemma lower_char_idem (c : ascii) : Str.lower_char (Str.lower_char c) = Str.lower_char c.
Proof. destruct c as [[] [] [] [] [] [] [] []]; reflexivity. Qed.

Lemma lower_idem (s : string) : Str.lower (Str.lower s) = Str.lower s.
Proof.
  induction s as [|c s IH]; [reflexivity|].
  simpl. now rewrite lower_char_idem, IH.
Qed.

Lemma contains_empty (s : string) : Str.contains "" s = true.
Proof. destruct s; reflexivity. Qed.

(** ** The keyword filters *)

Section BoolFilter.
Context {A : Type}.

Lemma filter_bool_cons (p : A -> bool) (x : A) (l : list A) :
  filter p (x :: l) = if p x then x :: filter p l else filter p l.
Proof.
  rewrite filter_cons. destruct (p x); destruct (decide _) as [H|H]; try reflexivity.
  - now destruct H.
  - destruct H.
Qed.

Lemma filter_bool_and (p q : A -> bool) (l : list A) :
  filter q (filter p l) = filter (fun x => p x && q x) l.
Proof.
  induction l as [|x l IH]; [reflexivity|].
  rewrite !filter_bool_cons. destruct (p x); cbn [andb].
  - rewrite filter_bool_cons. destruct (q x); now rewrite IH.
  - exact IH.
Qed.

Lemma filter_bool_ext (p q : A -> bool) (l : list A) :
  (forall x, p x = q x) -> filter p l = filter q l.
Proof.
  intros H. induction l as [|x l IH]; [reflexivity|].
  now rewrite !filter_bool_cons, H, IH.
Qed.

Lemma filter_bool_none (p : A -> bool) (l : list A) :
  (forall x, p x = false) -> filter p l = [].
Proof.
  intros H. induction l as [|x l IH]; [reflexivity|].
  now rewrite filter_bool_cons, H.
Qed.

Lemma filter_bool_all (p : A -> bool) (l : list A) :
  (forall x, p x = true) -> filter p l = l.
Proof.
  intros H. induction l as [|x l IH]; [reflexivity|].
  now rewrite filter_bool_cons, H, IH.
Qed.

End BoolFilter.

Lemma filter_jobs_spec (jobs : list job) (exclude_list : list string) :
  filter_jobs jobs exclude_list = filter (fun j => negb (excluded exclude_list j)) jobs.
Proof.
  unfold filter_jobs, excluded. destruct exclude_list as [|kw kws]; [|reflexivity].
  symmetry. now apply filter_bool_all.
Qed.

Lemma and_mode_filter_spec (jobs : list job) (kws : list string) :
  and_mode_filter jobs kws = filter (matches_all kws) jobs.
Proof. reflexivity. Qed.

Lemma excluded_app (a b : list string) (j : job) :
  excluded (a ++ b) j = excluded a j || excluded b j.
Proof. unfold excluded, any. now rewrite map_app, existsb_app. Qed.

Lemma matches_all_app (a b : list string) (j : job) :
  matches_all (a ++ b) j = matches_all a j && matches_all b j.
Proof. unfold matches_all, all. now rewrite map_app, forallb_app. Qed.

(** X1.  Filtering with one exclude list and then with another is filtering
    once with the two lists joined, in either order: this is how the
    handlers combine the request's list with the configured one. *)
Theorem filter_jobs_joined_lists (jobs : list job) (a b : list string) :
  filter_jobs (filter_jobs jobs a) b = filter_jobs jobs (a ++ b) /\
  filter_jobs jobs (a ++ b) = filter_jobs jobs (b ++ a).
Proof.
  rewrite !filter_jobs_spec, filter_bool_and. split.
  - apply filter_bool_ext. intros j. rewrite excluded_app. now destruct (excluded a j).
  - apply filter_bool_ext. intros j. rewrite !excluded_app. f_equal. apply orb_comm.
Qed.

(** X2.  The exclusion filter does not look at the case of the keywords:
    two exclude lists that agree once lower-cased filter alike. *)
Theorem filter_jobs_keyword_case (jobs : list job) (ex1 ex2 : list string) :
  map Str.lower ex1 = map Str.lower ex2 ->
  filter_jobs jobs ex1 = filter_jobs jobs ex2.
Proof.
  intros H. rewrite !filter_jobs_spec. apply filter_bool_ext.
  intros j. unfold excluded. now rewrite H.
Qed.

Lemma filter_jobs_keyword_case_witness :
  filter_jobs Sample.duplicates ["SITE Reliability"]
  = filter_jobs Sample.duplicates ["site reliability"].
Proof.
  apply (filter_jobs_keyword_case Sample.duplicates ["SITE Reliability"] ["site reliability"]).
  reflexivity.
Defined.

(** X3.  An empty text among the exclude keywords empties the result: the
    empty text is a substring of every title. *)
Theorem filter_jobs_empty_keyword (jobs : list job) (exclude_list : list string) :
  "" ∈ exclude_list -> filter_jobs jobs exclude_list = [].
Proof.
  intros Hin. rewrite filter_jobs_spec. apply filter_bool_none. intros j.
  apply negb_false_iff. unfold excluded, any. apply existsb_exists.
  exists "". split.
  - apply in_map_iff. exists "". split; [reflexivity|]. now apply list_elem_of_In.
  - apply contains_empty.
Qed.

Lemma filter_jobs_empty_keyword_witness :
  filter_jobs Sample.duplicates ["manager"; ""] = [].
Proof.
  apply (filter_jobs_empty_keyword Sample.duplicates ["manager"; ""]).
  apply list_elem_of_further, list_elem_of_here.
Defined.

(** X4.  The AND-mode filter with two keyword lists in a row is the filter
    with the joined list, so it is idempotent; and it commutes with the
    exclusion filter. *)
Theorem and_mode_filter_composes (jobs : list job) (a b exclude_list : list string) :
  and_mode_filter (and_mode_filter jobs a) b = and_mode_filter jobs (a ++ b) /\
  and_mode_filter (and_mode_filter jobs a) a = and_mode_filter jobs a /\
  and_mode_filter (filter_jobs jobs exclude_list) a
  = filter_jobs (and_mode_filter jobs a) exclude_list.
Proof.
  rewrite !and_mode_filter_spec, !filter_jobs_spec, !filter_bool_and.
  repeat split; apply filter_bool_ext; intros j.
  - now rewrite matches_all_app.
  - now destruct (matches_all a j).
  - apply andb_comm.
Qed.

(** ** Deduplication, again *)

Lemma dedupe_from_idem (seen : list value) (jobs : list job) :
  dedupe_from seen (dedupe_from seen jobs) = dedupe_from seen jobs.
Proof.
  revert seen. induction jobs as [|j rest IH]; intros seen; [reflexivity|].
  cbn [dedupe_from].
  destruct (py_truthy (get j "job_url") && negb (py_in_set (get j "job_url") seen)) eqn:E1.
  - cbn [dedupe_from]. now rewrite E1, IH.
  - destruct (negb (py_truthy (get j "job_url"))) eqn:E2.
    + cbn [dedupe_from]. now rewrite E1, E2, IH.
    + apply IH.
Qed.

Lemma dedupe_from_app (seen : list value) (l1 l2 : list job) :
  exists seen', dedupe_from seen (l1 ++ l2) = dedupe_from seen l1 ++ dedupe_from seen' l2.
Proof.
  revert seen. induction l1 as [|j rest IH]; intros seen.
  - exists seen. reflexivity.
  - cbn [app dedupe_from].
    destruct (py_truthy (get j "job_url") && negb (py_in_set (get j "job_url") seen)).
    + destruct (IH (get j "job_url" :: seen)) as (seen' & ->). now exists seen'.
    + destruct (negb (py_truthy (get j "job_url"))).
      * destruct (IH seen) as (seen' & ->). now exists seen'.
      * apply IH.
Qed.

(** X5.  Deduplication is idempotent, and the survivors among the first
    records of a list do not depend on what follows them: the deduplicated
    prefix is a prefix of the deduplicated list, so a record of an earlier
    location is never displaced by a later one. *)
Theorem dedupe_jobs_idempotent_prefix (l1 l2 : list job) :
  dedupe_jobs (dedupe_jobs l1) = dedupe_jobs l1 /\
  dedupe_jobs l1 `prefix_of` dedupe_jobs (l1 ++ l2).
Proof.
  unfold dedupe_jobs. split.
  - apply dedupe_from_idem.
  - destruct (dedupe_from_app [] l1 l2) as (seen' & ->). now apply prefix_app_r.
Qed.

(** ** Sanitization *)

Lemma clean_value_idem (v : value) : clean_value (clean_value v) = clean_value v.
Proof. now destruct v. Qed.

(** X6.  Sanitization leaves no NaN and no datetime in any field, keeps the
    keys of every record and the number of records, and is idempotent. *)
Theorem clean_job_data_serializable (jobs : list job) :
  (forall j k v, j ∈ clean_job_data jobs -> j !! k = Some v ->
                 v <> VNaN /\ forall d, v <> VDateTime d) /\
  Forall2 (fun j j' : job => dom j' = dom j) jobs (clean_job_data jobs) /\
  clean_job_data (clean_job_data jobs) = clean_job_data jobs.
Proof.
  unfold clean_job_data. split; [|split].
  - intros j k v Hin Hk. apply list_elem_of_fmap in Hin as (j0 & -> & _).
    rewrite lookup_fmap in Hk. destruct (j0 !! k) as [v0|]; [|discriminate].
    inversion Hk; subst v. destruct v0; cbn; split; try discriminate; intros; discriminate.
  - induction jobs as [|j jobs IH]; constructor; [|assumption].
    apply dom_fmap_L.
  - rewrite <- list_fmap_compose. apply list_fmap_ext. intros _ j _. cbn.
    rewrite <- map_fmap_compose. apply map_fmap_ext. intros k v _. apply clean_value_idem.
Qed.

Lemma clean_job_data_serializable_witness :
  VStr "2024-01-05T00:00:00" <> VNaN /\
  forall d, VStr "2024-01-05T00:00:00" <> VDateTime d.
Proof.
  apply (proj1 (clean_job_data_serializable [Sample.dated])
           (clean_value <$> Sample.dated) "date_posted").
  - vm_compute. apply list_elem_of_here.
  - vm_compute. reflexivity.
Defined.

(** ** Scoring, again *)

Lemma field_lower_frame (j j' : job) (k : string) :
  frame j j' -> extension_key k = false -> field_lower j' k = field_lower j k.
Proof. intros Hf Hk. unfold field_lower, get_or. now rewrite (Hf k Hk). Qed.

Lemma job_score_frame (sc : ScoringConfig) (j j' : job) :
  frame j j' -> job_score sc j' = job_score sc j.
Proof.
  intros Hf. unfold job_score.
  now rewrite !(field_lower_frame j j' _ Hf) by reflexivity.
Qed.

Lemma score_job_large_company (sc : ScoringConfig) (j : job) :
  any (fun lc => Str.contains lc (field_lower j "company"))
      (default Defaults.large_companies (sc_large_companies sc)) = true ->
  score_job sc j !! "_large_company" = Some (VBool true).
Proof.
  intros H. unfold score_job. rewrite H.
  repeat (rewrite lookup_insert_ne by discriminate).
  destruct (String.eqb _ _); now simplify_map_eq.
Qed.

Lemma score_job_govt_job (sc : ScoringConfig) (j : job) :
  String.eqb (field_lower j "site") "usajobs" = true ->
  score_job sc j !! "_govt_job" = Some (VBool true).
Proof. intros H. unfold score_job. rewrite H. now simplify_map_eq. Qed.

Lemma score_job_idem (sc : ScoringConfig) (j : job) :
  score_job sc (score_job sc j) = score_job sc j.
Proof.
  pose proof (score_job_frame sc j) as Hf.
  pose proof (score_job_is_manager sc j) as Hm.
  pose proof (score_job_is_senior_ic sc j) as Hs.
  pose proof (score_job_score sc j) as Hsc.
  pose proof (score_job_large_company sc j) as Hl.
  pose proof (score_job_govt_job sc j) as Hg.
  set (S := score_job sc j) in *.
  unfold score_job at 1.
  rewrite (job_score_frame sc j S Hf).
  rewrite !(field_lower_frame j S _ Hf) by reflexivity.
  assert (H1 : (if any (fun lc => Str.contains lc (field_lower j "company"))
                      (default Defaults.large_companies (sc_large_companies sc))
                then <["_large_company" := VBool true]> S else S) = S).
  { destruct (any _ (default Defaults.large_companies _)); [|reflexivity].
    now apply insert_id, Hl. }
  rewrite H1.
  assert (H2 : (if String.eqb (field_lower j "site") "usajobs"
                then <["_govt_job" := VBool true]> S else S) = S).
  { destruct (String.eqb _ _); [|reflexivity]. now apply insert_id, Hg. }
  rewrite H2.
  rewrite (insert_id S "_score") by exact Hsc.
  rewrite (insert_id S "_is_manager") by exact Hm.
  now apply insert_id.
Qed.

Section SortAgain.
Context {A : Type} (key : A -> Z).

Lemma sorted_reverse_descending_id (l : list A) :
  descending key l -> sorted_reverse key l = l.
Proof.
  unfold descending. induction l as [|x l IH]; intros Hs; [reflexivity|].
  inversion Hs as [|? ? Hs' Hhd]; subst.
  cbn [sorted_reverse]. rewrite (IH Hs').
  destruct l as [|y l]; [reflexivity|].
  inversion Hhd; subst. cbn [insert_desc].
  now replace (key y <=? key x) with true by lia.
Qed.

End SortAgain.

(** X7.  Scoring twice is scoring once: the score of a record does not read
    the fields the scoring writes, and a scored, sorted list is left as it
    is by a second pass. *)
Theorem score_jobs_idempotent (CONFIG : Config) (jobs : list job) (include_list : list string) :
  score_jobs CONFIG (score_jobs CONFIG jobs include_list) include_list
  = score_jobs CONFIG jobs include_list.
Proof.
  unfold score_jobs at 1.
  assert (Hmap : map (score_job (cfg_scoring CONFIG)) (score_jobs CONFIG jobs include_list)
                 = score_jobs CONFIG jobs include_list).
  { rewrite <- (map_id (score_jobs CONFIG jobs include_list)) at 2.
    apply map_ext_in. intros j Hj.
    apply list_elem_of_In, score_jobs_elem in Hj as (j0 & _ & ->).
    apply score_job_idem. }
  rewrite Hmap. apply sorted_reverse_descending_id.
  unfold score_jobs. apply sorted_reverse_descending.
Qed.

(** X8.  The scoring step loses and duplicates nothing: its result is a
    permutation of the scored records, of the length of its input. *)
Theorem score_jobs_permutation (CONFIG : Config) (jobs : list job) (include_list : list string) :
  Permutation (map (score_job (cfg_scoring CONFIG)) jobs)
              (score_jobs CONFIG jobs include_list) /\
  length (score_jobs CONFIG jobs include_list) = length jobs.
Proof.
  assert (H : Permutation (map (score_job (cfg_scoring CONFIG)) jobs)
                          (score_jobs CONFIG jobs include_list))
    by apply sorted_reverse_perm.
  split; [exact H|].
  rewrite <- (Permutation_length H). apply length_map.
Qed.

Section ScoreBounds.
Context {A : Type} (p : A -> bool) (d : Z) (Hd : 0 <= d).

Lemma fold_bonus_bounds (l : list A) (s : Z) :
  s <= fold_left (fun score x => if p x then score + d else score) l s
    <= s + d * Z.of_nat (length l).
Proof.
  revert s. induction l as [|x l IH]; intros s; cbn [fold_left length]; [lia|].
  specialize (IH (if p x then s + d else s)). destruct (p x); lia.
Qed.

Lemma fold_penalty_bounds (l : list A) (s : Z) :
  s - d * Z.of_nat (length l)
    <= fold_left (fun score x => if p x then score - d else score) l s <= s.
Proof.
  revert s. induction l as [|x l IH]; intros s; cbn [fold_left length]; [lia|].
  specialize (IH (if p x then s - d else s)). destruct (p x); lia.
Qed.

End ScoreBounds.

(** X9.  The score of a record lies between [-35] less ten per configured
    red flag and [70] plus five per configured skill, whatever the record
    holds. *)
Theorem job_score_bounds (sc : ScoringConfig) (j : job) :
  - 35 - 10 * Z.of_nat (length (default Defaults.red_flags (sc_red_flags sc)))
    <= job_score sc j
    <= 70 + 5 * Z.of_nat (length (default Defaults.good_skills (sc_good_skills sc))).
Proof.
  unfold job_score. cbv zeta.
  match goal with
  | |- context [fold_left (fun score flag => if Str.contains flag ?text then _ else _) ?l ?s] =>
      pose proof (fold_penalty_bounds (fun flag => Str.contains flag text) 10
                    ltac:(lia) l s) as Hflags;
      match s with
      | fold_left (fun score skill => if Str.contains skill ?descr then _ else _) ?l2 ?s2 =>
          pose proof (fold_bonus_bounds (fun skill => Str.contains skill descr) 5
                        ltac:(lia) l2 s2) as Hskills
      end
  end.
  cbv beta in Hflags, Hskills.
  repeat match goal with
         | |- context [if ?b then _ else _] => destruct b
         end; lia.
Qed.

(** ** Remote validation, again *)

Lemma validate_remote_job_unchecked (threshold : Z) (j : job) :
  salary_checked j = false ->
  validate_remote_job threshold j = Ok (Some (mark_validated j)).
Proof.
  unfold salary_checked. intros H. apply validate_generic_kept.
  destruct (String.eqb (remote_location j) "") eqn:E.
  - left. now apply String.eqb_eq.
  - right. cbn in H. now apply negb_false_iff in H.
Qed.

Lemma validate_remote_job_numeric (threshold : Z) (j : job) (a b : num) :
  salary_checked j = true ->
  num_view (bound j "min_amount") = Some a ->
  num_view (bound j "max_amount") = Some b ->
  validate_remote_job threshold j
  = Ok (if num_ge (if num_gt b a then b else a) (Fin threshold)
        then Some (mark_high_salary j)
        else if is_specific (remote_location j) then None
             else Some (mark_validated j)).
Proof.
  unfold salary_checked. intros Hc Ha Hb.
  apply andb_true_iff in Hc as [Hne Hgen].
  apply negb_true_iff in Hne, Hgen.
  unfold validate_remote_job. fold (is_generic (remote_location j)).
  fold (bound j "min_amount") (bound j "max_amount").
  fold (is_specific (remote_location j)).
  rewrite Hne, Hgen. unfold py_max, py_gt. rewrite Ha, Hb.
  cbn [mbind result_bind]. unfold py_ge_int.
  destruct (num_gt b a); rewrite ?Ha, ?Hb; cbn [mbind result_bind];
    (destruct (num_ge _ _); [reflexivity|now destruct (is_specific _)]).
Qed.

Lemma validate_remote_job_raises (threshold : Z) (j : job) :
  salary_unusable j = true -> validate_remote_job threshold j = Raise TypeError.
Proof.
  unfold salary_unusable, salary_checked, numeric. intros H.
  apply andb_true_iff in H as [Hc Hn].
  apply andb_true_iff in Hc as [Hne Hgen].
  apply negb_true_iff in Hne, Hgen, Hn.
  unfold validate_remote_job. fold (is_generic (remote_location j)).
  fold (bound j "min_amount") (bound j "max_amount").
  rewrite Hne, Hgen. unfold py_max, py_gt, py_ge_int.
  destruct (bound j "min_amount") as [|[]| | | |], (bound j "max_amount") as [|[]| | | |];
    cbn in Hn |- *; try discriminate; try reflexivity;
    match goal with |- context [if ?c then _ else _] => now destruct c end.
Qed.

Lemma validate_remote_job_returns (threshold : Z) (j : job) :
  salary_unusable j = false -> exists kept, validate_remote_job threshold j = Ok kept.
Proof.
  unfold salary_unusable. intros H.
  destruct (salary_checked j) eqn:Hc.
  - cbn in H. apply negb_false_iff, andb_true_iff in H as [H1 H2].
    unfold numeric in H1, H2.
    destruct (num_view (bound j "min_amount")) as [a|] eqn:Ha; [|discriminate].
    destruct (num_view (bound j "max_amount")) as [b|] eqn:Hb; [|discriminate].
    rewrite (validate_remote_job_numeric _ _ _ _ Hc Ha Hb). eauto.
  - rewrite (validate_remote_job_unchecked _ _ Hc). eauto.
Qed.

Lemma validate_remote_jobs_outcome (threshold : Z) (jobs : list job) :
  validate_remote_jobs_with threshold jobs
  = (if existsb salary_unusable jobs then Raise TypeError
     else validate_remote_jobs_with threshold jobs) /\
  (existsb salary_unusable jobs = false ->
   exists validated, validate_remote_jobs_with threshold jobs = Ok validated).
Proof.
  induction jobs as [|j rest [IH1 IH2]]; cbn [existsb validate_remote_jobs_with].
  { split; [reflexivity|]. eauto. }
  destruct (salary_unusable j) eqn:Hj; cbn [orb].
  - split; [|discriminate]. now rewrite (validate_remote_job_raises _ _ Hj).
  - destruct (validate_remote_job_returns threshold j Hj) as (kept & Hk).
    rewrite Hk. cbn [mbind result_bind]. split.
    + destruct (existsb salary_unusable rest); [|reflexivity]. now rewrite IH1.
    + intros Hrest. destruct (IH2 Hrest) as (validated & ->).
      cbn [mbind result_bind]. eauto.
Qed.

(** X10.  Remote validation raises a [TypeError] exactly when some record
    with a location that is neither empty nor generic holds a salary bound
    that is not a number (a text or a datetime); otherwise it returns a
    list. *)
Theorem validate_remote_jobs_type_error (threshold : Z) (jobs : list job) :
  (existsb salary_unusable jobs = true ->
   validate_remote_jobs_with threshold jobs = Raise TypeError) /\
  (existsb salary_unusable jobs = false ->
   exists validated, validate_remote_jobs_with threshold jobs = Ok validated).
Proof.
  destruct (validate_remote_jobs_outcome threshold jobs) as [H1 H2].
  split; [|exact H2]. intros H. now rewrite H in H1.
Qed.

Lemma validate_remote_jobs_type_error_witness :
  validate_remote_jobs_with 150000
    [Sample.new_york; Sample.posting "Engineer" "Austin, TX" "u2" VNone (VStr "160k")]
  = Raise TypeError /\
  exists validated,
    validate_remote_jobs_with 150000 [Sample.new_york] = Ok validated.
Proof.
  split.
  - apply (validate_remote_jobs_type_error 150000
             [Sample.new_york;
              Sample.posting "Engineer" "Austin, TX" "u2" VNone (VStr "160k")]).
    vm_compute. reflexivity.
  - apply (validate_remote_jobs_type_error 150000 [Sample.new_york]).
    vm_compute. reflexivity.
Defined.

(** X11.  With finite salary bounds [x] and [y], a record whose location is
    neither empty nor generic is kept with [_high_salary] when [max x y]
    reaches the threshold; below it, the record is dropped when its location
    is specific and kept as validated when it is not. *)
Theorem validate_remote_job_finite (threshold : Z) (j : job) (x y : Z) :
  salary_checked j = true ->
  num_view (bound j "min_amount") = Some (Fin x) ->
  num_view (bound j "max_amount") = Some (Fin y) ->
  validate_remote_job threshold j
  = Ok (if threshold <=? Z.max x y then Some (mark_high_salary j)
        else if is_specific (remote_location j) then None
             else Some (mark_validated j)).
Proof.
  intros Hc Hx Hy. rewrite (validate_remote_job_numeric _ _ _ _ Hc Hx Hy).
  cbn [num_gt]. destruct (x <? y) eqn:E; cbn [num_ge].
  - now replace (Z.max x y) with y by lia.
  - now replace (Z.max x y) with x by lia.
Qed.

Lemma validate_remote_job_finite_witness :
  validate_remote_job 150000
    (Sample.posting "Engineer" "Springfield" "u3" (VNum 90000) (VNum 120000))
  = Ok (Some (mark_validated
                (Sample.posting "Engineer" "Springfield" "u3" (VNum 90000) (VNum 120000)))).
Proof.
  apply (validate_remote_job_finite 150000
           (Sample.posting "Engineer" "Springfield" "u3" (VNum 90000) (VNum 120000))
           90000 120000); vm_compute; reflexivity.
Defined.

(** X12.  A NaN lower bound switches the salary override off, whatever the
    upper bound and the threshold: a record whose location is neither empty
    nor generic is then dropped when the location is specific and kept as
    validated when it is not. *)
Theorem validate_remote_job_nan (threshold : Z) (j : job) (b : num) :
  salary_checked j = true ->
  num_view (bound j "min_amount") = Some NaN ->
  num_view (bound j "max_amount") = Some b ->
  validate_remote_job threshold j
  = Ok (if is_specific (remote_location j) then None else Some (mark_validated j)).
Proof.
  intros Hc Ha Hb. rewrite (validate_remote_job_numeric _ _ _ _ Hc Ha Hb).
  now destruct b.
Qed.

Lemma validate_remote_job_nan_witness :
  validate_remote_job 150000
    (Sample.posting "Engineer" "Austin, TX" "u4" VNaN (VNum 900000))
  = Ok None.
Proof.
  apply (validate_remote_job_nan 150000
           (Sample.posting "Engineer" "Austin, TX" "u4" VNaN (VNum 900000))
           (Fin 900000)); vm_compute; reflexivity.
Defined.

(** X13.  When every record has an empty or a generic location text, remote
    validation keeps them all, in order, each marked as validated, whatever
    the salary fields hold: it does not read them and cannot raise. *)
Theorem validate_remote_jobs_all_generic (threshold : Z) (jobs : list job) :
  forallb (fun j => negb (salary_checked j)) jobs = true ->
  validate_remote_jobs_with threshold jobs = Ok (map mark_validated jobs).
Proof.
  induction jobs as [|j rest IH]; cbn [forallb validate_remote_jobs_with map];
    [reflexivity|].
  intros H. apply andb_true_iff in H as [Hj Hrest]. apply negb_true_iff in Hj.
  rewrite (validate_remote_job_unchecked _ _ Hj), (IH Hrest). reflexivity.
Qed.

Lemma validate_remote_jobs_all_generic_witness :
  validate_remote_jobs_with 150000
    [Sample.posting "Engineer" "Remote - USA" "u5" (VStr "n/a") (VStr "160k");
     Sample.posting "Analyst" "   " "u6" VNaN VNaN]
  = Ok (map mark_validated
          [Sample.posting "Engineer" "Remote - USA" "u5" (VStr "n/a") (VStr "160k");
           Sample.posting "Analyst" "   " "u6" VNaN VNaN]).
Proof.
  apply (validate_remote_jobs_all_generic 150000
           [Sample.posting "Engineer" "Remote - USA" "u5" (VStr "n/a") (VStr "160k");
            Sample.posting "Analyst" "   " "u6" VNaN VNaN]).
  vm_compute. reflexivity.
Defined.

(** What a kept record looks like, and where it comes from. *)
Lemma validate_remote_job_kept (threshold : Z) (j j' : job) :
  validate_remote_job threshold j = Ok (Some j') ->
  j' = mark_validated j \/ (j' = mark_high_salary j /\ salary_checked j = true).
Proof.
  intros H. destruct (salary_checked j) eqn:Hc.
  - destruct (salary_unusable j) eqn:Hu.
    { rewrite (validate_remote_job_raises _ _ Hu) in H. discriminate. }
    unfold salary_unusable in Hu. rewrite Hc in Hu. cbn in Hu.
    apply negb_false_iff, andb_true_iff in Hu as [H1 H2]. unfold numeric in H1, H2.
    destruct (num_view (bound j "min_amount")) as [a|] eqn:Ha; [|discriminate].
    destruct (num_view (bound j "max_amount")) as [b|] eqn:Hb; [|discriminate].
    rewrite (validate_remote_job_numeric _ _ _ _ Hc Ha Hb) in H.
    destruct (num_ge _ _).
    + inversion H. now right.
    + destruct (is_specific _); inversion H. now left.
  - rewrite (validate_remote_job_unchecked _ _ Hc) in H. inversion H. now left.
Qed.

Lemma remote_location_frame (j j' : job) :
  frame j j' -> remote_location j' = remote_location j.
Proof. intros Hf. unfold remote_location, get. now rewrite (Hf "location" eq_refl). Qed.

Lemma bound_frame (j j' : job) (k : string) :
  frame j j' -> extension_key k = false -> bound j' k = bound j k.
Proof. intros Hf Hk. unfold bound, get. now rewrite (Hf k Hk). Qed.

Lemma validate_remote_job_idem (threshold : Z) (j j' : job) :
  validate_remote_job threshold j = Ok (Some j') ->
  validate_remote_job threshold j' = Ok (Some j').
Proof.
  intros H. pose proof (validate_remote_job_frame _ _ _ H) as Hf.
  assert (Hc' : salary_checked j' = salary_checked j).
  { unfold salary_checked. now rewrite (remote_location_frame _ _ Hf). }
  destruct (salary_checked j) eqn:Hc.
  - destruct (salary_unusable j) eqn:Hu.
    { rewrite (validate_remote_job_raises _ _ Hu) in H. discriminate. }
    unfold salary_unusable in Hu. rewrite Hc in Hu. cbn in Hu.
    apply negb_false_iff, andb_true_iff in Hu as [H1 H2]. unfold numeric in H1, H2.
    destruct (num_view (bound j "min_amount")) as [a|] eqn:Ha; [|discriminate].
    destruct (num_view (bound j "max_amount")) as [b|] eqn:Hb; [|discriminate].
    rewrite (validate_remote_job_numeric _ _ _ _ Hc Ha Hb) in H.
    rewrite (validate_remote_job_numeric threshold j' a b Hc').
    2: now rewrite (bound_frame _ _ _ Hf).
    2: now rewrite (bound_frame _ _ _ Hf).
    rewrite (remote_location_frame _ _ Hf).
    destruct (num_ge _ _).
    + inversion H. do 2 f_equal. unfold mark_high_salary.
      rewrite (insert_id _ "_remote_validated" (VBool false)) by now simplify_map_eq.
      apply insert_id. now simplify_map_eq.
    + destruct (is_specific _); inversion H. do 2 f_equal.
      unfold mark_validated. apply insert_id. now simplify_map_eq.
  - rewrite (validate_remote_job_unchecked _ _ Hc) in H. inversion H.
    rewrite validate_remote_job_unchecked.
    + do 2 f_equal. unfold mark_validated. apply insert_id. now simplify_map_eq.
    + congruence.
Qed.

(** X14.  Remote validation is idempotent: validating its own result gives
    that result back. *)
Theorem validate_remote_jobs_idempotent (threshold : Z) (jobs validated : list job) :
  validate_remote_jobs_with threshold jobs = Ok validated ->
  validate_remote_jobs_with threshold validated = Ok validated.
Proof.
  revert validated. induction jobs as [|j rest IH]; intros validated H.
  - inversion H. reflexivity.
  - cbn [validate_remote_jobs_with] in H.
    destruct (validate_remote_job threshold j) as [kept|] eqn:Ej; [|discriminate].
    cbn [mbind result_bind] in H.
    destruct (validate_remote_jobs_with threshold rest) as [vs|] eqn:Er; [|discriminate].
    cbn [mbind result_bind] in H. inversion H; subst validated; clear H.
    destruct kept as [j'|]; [|now apply IH].
    cbn [validate_remote_jobs_with].
    rewrite (validate_remote_job_idem _ _ _ Ej), (IH vs eq_refl). reflexivity.
Qed.

Lemma validate_remote_jobs_idempotent_witness :
  validate_remote_jobs_with 150000
    [mark_high_salary (Sample.posting "Engineer" "Austin, TX" "u7" VNone (VNum 200000))]
  = Ok [mark_high_salary (Sample.posting "Engineer" "Austin, TX" "u7" VNone (VNum 200000))].
Proof.
  apply (validate_remote_jobs_idempotent 150000
           [Sample.new_york;
            Sample.posting "Engineer" "Austin, TX" "u7" VNone (VNum 200000)]).
  vm_compute. reflexivity.
Defined.

(** X15.  Every record remote validation returns carries
    [_remote_validated]; where that flag is false the record carries
    [_high_salary = true].  No more records come out than went in. *)
Theorem validate_remote_jobs_marks (threshold : Z) (jobs validated : list job) :
  validate_remote_jobs_with threshold jobs = Ok validated ->
  Forall (fun j' : job =>
            j' !! "_remote_validated" = Some (VBool true) \/
            (j' !! "_remote_validated" = Some (VBool false) /\
             j' !! "_high_salary" = Some (VBool true)))
         validated /\
  (length validated <= length jobs)%nat.
Proof.
  intros H. split.
  - apply Forall_forall. intros j' Hin.
    destruct (validate_remote_jobs_elem _ _ _ _ H Hin) as (j & _ & Hj).
    apply validate_remote_job_kept in Hj as [->|[-> _]].
    + left. unfold mark_validated. now simplify_map_eq.
    + right. unfold mark_high_salary. split; now simplify_map_eq.
  - revert validated H. induction jobs as [|j rest IH]; intros validated H.
    + inversion H. reflexivity.
    + cbn [validate_remote_jobs_with] in H.
      destruct (validate_remote_job threshold j) as [kept|]; [|discriminate].
      cbn [mbind result_bind] in H.
      destruct (validate_remote_jobs_with threshold rest) as [vs|]; [|discriminate].
      cbn [mbind result_bind] in H. inversion H; subst validated.
      specialize (IH vs eq_refl). destruct kept; cbn [length]; lia.
Qed.

Lemma validate_remote_jobs_marks_witness :
  (length [mark_high_salary
             (Sample.posting "Engineer" "Austin, TX" "u7" VNone (VNum 200000))]
   <= length [Sample.new_york;
              Sample.posting "Engineer" "Austin, TX" "u7" VNone (VNum 200000)])%nat.
Proof.
  apply (validate_remote_jobs_marks 150000
           [Sample.new_york;
            Sample.posting "Engineer" "Austin, TX" "u7" VNone (VNum 200000)]).
  vm_compute. reflexivity.
Defined.

(** ** The responses of the handlers *)

(** The records that leave the common steps, before truncation. *)
Lemma finish_elem (CONFIG : Config) (request : JobRequest) (merged : list job) (j' : job) :
  j' ∈ finish CONFIG request merged ->
  exists j,
    j ∈ merged /\
    j' = clean_value <$> score_job (cfg_scoring CONFIG) j /\
    excluded (exclude_list_of CONFIG request) j = false /\
    (requireAllKeywords request && list_truthy (keywords request) = true ->
     matches_all (default [] (keywords request)) j = true).
Proof.
  unfold finish. intros H.
  apply py_slice_to_subseteq in H.
  unfold clean_job_data in H. apply list_elem_of_fmap in H as (j1 & -> & H).
  apply score_jobs_elem in H as (j & H & ->).
  exists j.
  assert (Hfilter : forall l, j ∈ filter_jobs l (exclude_list_of CONFIG request) ->
                              j ∈ l /\ excluded (exclude_list_of CONFIG request) j = false).
  { intros l Hl. rewrite filter_jobs_spec in Hl.
    apply list_elem_of_filter in Hl as [Hp Hl]. split; [assumption|].
    apply Is_true_true in Hp. now apply negb_true_iff in Hp. }
  destruct (requireAllKeywords request && list_truthy (keywords request)).
  - rewrite and_mode_filter_spec in H. apply list_elem_of_filter in H as [Hp H].
    apply Is_true_true in Hp. apply Hfilter in H as [H1 H2]. repeat split; auto.
  - apply Hfilter in H as [H1 H2]. repeat split; auto. discriminate.
Qed.

Lemma handler_body_finish (ep : endpoint) (CONFIG : Config) (scrape_jobs : Scraper)
    (fetch : UsajobsFetch) (request : JobRequest) (resp : JobResponse) :
  handler_body ep CONFIG scrape_jobs fetch request = Ok resp ->
  exists merged, jobs resp = finish CONFIG request merged.
Proof.
  destruct ep; cbn [handler_body].
  - unfold get_jobs_body.
    destruct (parse_since_when _); cbn [mbind result_bind]; [|discriminate].
    destruct (scrape_single_location _ _ _ _ _ _ _ _); cbn [mbind result_bind];
      [|discriminate].
    match goal with
    | |- context [mbind _ ?r] => destruct r as [validated|]
    end; cbn [mbind result_bind]; [|discriminate].
    intros H. inversion H. cbn [jobs]. eauto.
  - unfold search_all_body.
    destruct (parse_since_when _); cbn [mbind result_bind]; [|discriminate].
    destruct (fold_left _ _ _) as [all_jobs searched].
    intros H. inversion H. cbn [jobs]. eauto.
Qed.

(** The jobs of a returned response are those of the body, or none. *)
Lemma handler_jobs (ep : endpoint) (CONFIG : Config) (scrape_jobs : Scraper)
    (fetch : UsajobsFetch) (request : JobRequest) (resp : JobResponse) :
  handler ep CONFIG scrape_jobs fetch request = Ok resp ->
  jobs resp = [] \/ exists merged, jobs resp = finish CONFIG request merged.
Proof.
  intros H.
  assert (Hr : resp = try_except (handler_body ep CONFIG scrape_jobs fetch request)
                                 (fun _ => error_response)).
  { destruct ep; cbn [handler handler_body] in *; unfold get_jobs, search_all in H;
      now inversion H. }
  destruct (handler_body ep CONFIG scrape_jobs fetch request) as [r|e] eqn:E;
    cbn [try_except] in Hr; subst resp.
  - right. now apply (handler_body_finish ep CONFIG scrape_jobs fetch request).
  - now left.
Qed.

Lemma py_slice_to_take {A} (l : list A) (limit : Z) :
  exists n, py_slice_to l limit = take n l.
Proof. unfold py_slice_to. destruct (0 <=? limit); eauto. Qed.

(** X16.  A response never holds more records than the requested limit,
    when that limit is not negative; with a limit of zero it holds none. *)
Theorem response_length_limit (ep : endpoint) (CONFIG : Config) (scrape_jobs : Scraper)
    (fetch : UsajobsFetch) (request : JobRequest) (resp : JobResponse) :
  handler ep CONFIG scrape_jobs fetch request = Ok resp ->
  0 <= limit request ->
  (length (jobs resp) <= Z.to_nat (limit request))%nat.
Proof.
  intros H Hlimit.
  destruct (handler_jobs _ _ _ _ _ _ H) as [->|(merged & ->)]; [cbn; lia|].
  unfold finish, py_slice_to.
  replace (0 <=? limit request) with true by lia.
  rewrite length_take. lia.
Qed.

Lemma response_length_limit_witness :
  (length (jobs_of (search_all Sample.city_config (Sample.one_record Sample.new_york)
                      Sample.no_fetch (Sample.request "1d" None 0)))
   <= Z.to_nat 0)%nat.
Proof.
  apply (response_length_limit SearchAll Sample.city_config
           (Sample.one_record Sample.new_york) Sample.no_fetch
           (Sample.request "1d" None 0)
           (try_except (search_all_body Sample.city_config
                          (Sample.one_record Sample.new_york) Sample.no_fetch
                          (Sample.request "1d" None 0))
                       (fun _ => error_response))).
  - reflexivity.
  - vm_compute. discriminate.
Defined.

Lemma score_key_clean (j : job) : score_key (clean_value <$> j) = score_key j.
Proof.
  unfold score_key, get_or. rewrite lookup_fmap.
  destruct (j !! "_score") as [[]|]; reflexivity.
Qed.

Section KeepOrder.
Context {A : Type} (key : A -> Z).

Lemma descending_map (f : A -> A) (l : list A) :
  (forall x, key (f x) = key x) -> descending key l -> descending key (map f l).
Proof.
  intros Hf. unfold descending. induction 1 as [|x l Hs IH Hhd]; cbn [map]; constructor.
  - exact IH.
  - destruct Hhd; cbn [map]; constructor. now rewrite !Hf.
Qed.

Lemma descending_take (n : nat) (l : list A) :
  descending key l -> descending key (take n l).
Proof.
  unfold descending. intros Hs. revert n.
  induction Hs as [|x l Hs IH Hhd]; intros [|n]; cbn [take]; try constructor.
  - apply IH.
  - destruct Hhd; destruct n; cbn [take]; constructor. assumption.
Qed.

End KeepOrder.

(** X17.  The jobs of every response are in descending order of [_score],
    and each of them carries an integer [_score]. *)
Theorem response_sorted_by_score (ep : endpoint) (CONFIG : Config) (scrape_jobs : Scraper)
    (fetch : UsajobsFetch) (request : JobRequest) (resp : JobResponse) :
  handler ep CONFIG scrape_jobs fetch request = Ok resp ->
  descending score_key (jobs resp) /\
  Forall (fun j : job => j !! "_score" = Some (VNum (score_key j))) (jobs resp).
Proof.
  intros H.
  destruct (handler_jobs _ _ _ _ _ _ H) as [->|(merged & Hjobs)].
  { split; constructor. }
  split.
  - rewrite Hjobs. unfold finish.
    match goal with
    | |- context [py_slice_to ?l ?n] => destruct (py_slice_to_take l n) as (k & ->)
    end.
    apply descending_take. unfold clean_job_data.
    apply (descending_map score_key (fun j : job => clean_value <$> j)).
    + apply score_key_clean.
    + apply sorted_reverse_descending.
  - apply Forall_forall. intros j' Hin. rewrite Hjobs in Hin.
    apply finish_elem in Hin as (j & _ & -> & _).
    rewrite score_key_clean, score_key_score_job, lookup_fmap, score_job_score.
    reflexivity.
Qed.

Lemma response_sorted_by_score_witness :
  descending score_key
    (jobs_of (get_jobs Sample.config (Sample.one_record Sample.new_york)
                Sample.no_fetch (Sample.request "1d" None 10))).
Proof.
  apply (response_sorted_by_score GetJobs Sample.config
           (Sample.one_record Sample.new_york) Sample.no_fetch
           (Sample.request "1d" None 10)
           (try_except (get_jobs_body Sample.config (Sample.one_record Sample.new_york)
                          Sample.no_fetch (Sample.request "1d" None 10))
                       (fun _ => error_response))).
  reflexivity.
Defined.

(** X18.  Every record of a response is the sanitized, scored copy of a
    merged record whose title holds none of the exclude keywords, neither
    those of the request nor those of the configuration, and which, in AND
    mode, holds every requested keyword in its title or description. *)
Theorem response_passed_filters (ep : endpoint) (CONFIG : Config) (scrape_jobs : Scraper)
    (fetch : UsajobsFetch) (request : JobRequest) (resp : JobResponse) (j' : job) :
  handler ep CONFIG scrape_jobs fetch request = Ok resp ->
  j' ∈ jobs resp ->
  exists j,
    j' = clean_value <$> score_job (cfg_scoring CONFIG) j /\
    (forall kw,
        kw ∈ default [] (excludeKeywords request) \/ kw ∈ cfg_exclude_keywords CONFIG ->
        Str.contains (Str.lower kw) (field_lower j "title") = false) /\
    (requireAllKeywords request = true ->
     forall kw, kw ∈ default [] (keywords request) ->
       Str.contains (Str.lower kw) (field_lower j "title")
       || Str.contains (Str.lower kw) (field_lower j "description") = true).
Proof.
  intros H Hin.
  destruct (handler_jobs _ _ _ _ _ _ H) as [Hnil|(merged & Hjobs)].
  { rewrite Hnil in Hin. now apply elem_of_nil in Hin. }
  rewrite Hjobs in Hin. apply finish_elem in Hin as (j & _ & -> & Hex & Hall).
  exists j. split; [reflexivity|]. split.
  - intros kw Hkw. unfold excluded, any, exclude_list_of in Hex.
    destruct (Str.contains (Str.lower kw) (field_lower j "title")) eqn:E; [|reflexivity].
    rewrite <- Hex. symmetry. apply existsb_exists. exists (Str.lower kw).
    split; [|exact E]. apply in_map, list_elem_of_In, elem_of_app. exact Hkw.
  - intros Hreq kw Hkw. rewrite Hreq in Hall. cbn [andb] in Hall.
    assert (Ht : list_truthy (keywords request) = true).
    { destruct (keywords request) as [[|? ?]|]; cbn in *;
        first [reflexivity | now apply elem_of_nil in Hkw]. }
    specialize (Hall Ht). unfold matches_all, all in Hall.
    rewrite forallb_forall in Hall. apply Hall.
    now apply in_map, list_elem_of_In.
Qed.

Lemma response_passed_filters_witness :
  exists j,
    hd ∅ (jobs_of (get_jobs Sample.config (Sample.one_record Sample.new_york)
                     Sample.no_fetch (Sample.request "1d" None 10)))
    = clean_value <$> score_job (cfg_scoring Sample.config) j.
Proof.
  destruct (response_passed_filters GetJobs Sample.config
              (Sample.one_record Sample.new_york) Sample.no_fetch
              (Sample.request "1d" None 10)
              (try_except (get_jobs_body Sample.config (Sample.one_record Sample.new_york)
                             Sample.no_fetch (Sample.request "1d" None 10))
                          (fun _ => error_response))
              (hd ∅ (jobs_of (get_jobs Sample.config (Sample.one_record Sample.new_york)
                                Sample.no_fetch (Sample.request "1d" None 10))))
              eq_refl) as (j & Hj & _).
  - vm_compute. apply list_elem_of_here.
  - exists j. exact Hj.
Defined.

(** The fields the validation and the fan-out write survive scoring and
    sanitization when they hold a flag or a text. *)
Lemma finished_lookup_ext (sc : ScoringConfig) (j : job) (k : string) (v : value) :
  k <> "_large_company" -> k <> "_govt_job" -> k <> "_score" ->
  k <> "_is_manager" -> k <> "_is_senior_ic" ->
  j !! k = Some v ->
  (clean_value <$> score_job sc j) !! k = Some (clean_value v).
Proof.
  intros H1 H2 H3 H4 H5 Hk. rewrite lookup_fmap. unfold score_job.
  rewrite !lookup_insert_ne by congruence.
  repeat case_match; rewrite ?lookup_insert_ne by congruence; now rewrite Hk.
Qed.

Lemma merged_records_tagged (CONFIG : Config) (scrape_jobs : Scraper) (fetch : UsajobsFetch)
    (request : JobRequest) (hours_old : Z) (j : job) :
  j ∈ merged_records CONFIG scrape_jobs fetch request hours_old ->
  exists loc,
    loc ∈ locations_of CONFIG request /\
    (j !! "_location_name" = Some (VStr (location_name loc)) \/
     j !! "_location_name" = Some (VStr (location_name loc +:+ "_usajobs"))).
Proof.
  unfold merged_records. rewrite elem_of_app. intros [H|H].
  - apply elem_of_flat_map in H as (loc & Hloc & H). exists loc. split; [assumption|].
    left. unfold location_records in H.
    destruct (scrape_jobs _) as [found|]; [|now apply elem_of_nil in H].
    destruct (default false (loc_is_remote loc)).
    + destruct (validate_remote_jobs found); [|now apply elem_of_nil in H].
      apply list_elem_of_fmap in H as (j0 & -> & _). apply lookup_insert_eq.
    + apply list_elem_of_fmap in H as (j0 & -> & _). apply lookup_insert_eq.
  - destruct (usajobs_on CONFIG); [|now apply elem_of_nil in H].
    apply elem_of_flat_map in H as (loc & Hloc & H). exists loc. split; [assumption|].
    right. unfold usajobs_records in H.
    apply list_elem_of_fmap in H as (j0 & -> & _). apply lookup_insert_eq.
Qed.

(** X19.  Every record of a fan-out response is tagged: its
    [_location_name] is the name of one of the searched locations, or that
    name followed by [_usajobs]. *)
Theorem search_all_records_tagged (CONFIG : Config) (scrape_jobs : Scraper)
    (fetch : UsajobsFetch) (request : JobRequest) (resp : JobResponse) (j' : job) :
  search_all CONFIG scrape_jobs fetch request = Ok resp ->
  j' ∈ jobs resp ->
  exists loc,
    loc ∈ locations_of CONFIG request /\
    (j' !! "_location_name" = Some (VStr (location_name loc)) \/
     j' !! "_location_name" = Some (VStr (location_name loc +:+ "_usajobs"))).
Proof.
  unfold search_all. intros H Hin. inversion H; subst resp; clear H.
  destruct (parse_since_when (sinceWhen request)) as [hours_old|e] eqn:Hparse.
  - rewrite (search_all_body_merged _ _ _ _ _ Hparse) in Hin.
    cbn [try_except jobs] in Hin.
    apply finish_elem in Hin as (j & Hj & -> & _).
    apply (sublist_subseteq _ _ (dedupe_from_sublist _ _)) in Hj.
    apply merged_records_tagged in Hj as (loc & Hloc & Htag).
    exists loc. split; [assumption|].
    destruct Htag as [Htag|Htag]; [left|right];
      apply (finished_lookup_ext (cfg_scoring CONFIG)) in Htag; try discriminate;
      exact Htag.
  - unfold search_all_body in Hin. rewrite Hparse in Hin.
    cbn [mbind result_bind try_except error_response jobs] in Hin.
    now apply elem_of_nil in Hin.
Qed.

Lemma search_all_records_tagged_witness :
  exists loc,
    loc ∈ locations_of Sample.city_config (Sample.request "1d" None 10) /\
    (hd ∅ (jobs_of (search_all Sample.city_config (Sample.one_record Sample.new_york)
                      Sample.no_fetch (Sample.request "1d" None 10)))
       !! "_location_name" = Some (VStr (location_name loc)) \/
     hd ∅ (jobs_of (search_all Sample.city_config (Sample.one_record Sample.new_york)
                      Sample.no_fetch (Sample.request "1d" None 10)))
       !! "_location_name" = Some (VStr (location_name loc +:+ "_usajobs"))).
Proof.
  apply (search_all_records_tagged Sample.city_config (Sample.one_record Sample.new_york)
           Sample.no_fetch (Sample.request "1d" None 10)
           (try_except (search_all_body Sample.city_config
                          (Sample.one_record Sample.new_york) Sample.no_fetch
                          (Sample.request "1d" None 10))
                       (fun _ => error_response))).
  - reflexivity.
  - vm_compute. apply list_elem_of_here.
Defined.

(** X20.  In the single-location handler a request that specifies remote
    only gets records that went through remote validation: each carries
    [_remote_validated], and [_high_salary = true] where that flag is
    false. *)
Theorem get_jobs_remote_marks (CONFIG : Config) (scrape_jobs : Scraper)
    (fetch : UsajobsFetch) (request : JobRequest) (resp : JobResponse) (j' : job) :
  isRemote request = Some true ->
  get_jobs CONFIG scrape_jobs fetch request = Ok resp ->
  j' ∈ jobs resp ->
  j' !! "_remote_validated" = Some (VBool true) \/
  (j' !! "_remote_validated" = Some (VBool false) /\
   j' !! "_high_salary" = Some (VBool true)).
Proof.
  intros Hremote H Hin. unfold get_jobs in H. inversion H; subst resp; clear H.
  unfold get_jobs_body, is_remote_of in Hin. rewrite Hremote in Hin. cbn [default] in Hin.
  destruct (parse_since_when _); cbn [mbind result_bind try_except] in Hin;
    [|now apply elem_of_nil in Hin].
  destruct (scrape_single_location _ _ _ _ _ _ _ _);
    cbn [mbind result_bind try_except] in Hin; [|now apply elem_of_nil in Hin].
  match type of Hin with
  | context [validate_remote_jobs ?l] =>
      destruct (validate_remote_jobs l) as [validated|] eqn:Ev
  end; cbn [mbind result_bind try_except jobs] in Hin; [|now apply elem_of_nil in Hin].
  apply finish_elem in Hin as (j & Hj & -> & _).
  destruct (validate_remote_jobs_marks _ _ _ Ev) as [Hmarks _].
  rewrite Forall_forall in Hmarks.
  destruct (Hmarks j Hj) as [Hv|[Hv Hh]].
  - left. apply (finished_lookup_ext (cfg_scoring CONFIG)) in Hv; try discriminate.
    exact Hv.
  - right.
    apply (finished_lookup_ext (cfg_scoring CONFIG)) in Hv; try discriminate.
    apply (finished_lookup_ext (cfg_scoring CONFIG)) in Hh; try discriminate.
    now split.
Qed.

Lemma get_jobs_remote_marks_witness :
  hd ∅ (jobs_of (get_jobs Sample.config
                   (Sample.one_record
                      (Sample.posting "Engineer" "Austin, TX" "u7" VNone (VNum 200000)))
                   Sample.no_fetch (Sample.request "1d" (Some true) 10)))
    !! "_remote_validated" = Some (VBool true) \/
  (hd ∅ (jobs_of (get_jobs Sample.config
                    (Sample.one_record
                       (Sample.posting "Engineer" "Austin, TX" "u7" VNone (VNum 200000)))
                    Sample.no_fetch (Sample.request "1d" (Some true) 10)))
     !! "_remote_validated" = Some (VBool false) /\
   hd ∅ (jobs_of (get_jobs Sample.config
                    (Sample.one_record
                       (Sample.posting "Engineer" "Austin, TX" "u7" VNone (VNum 200000)))
                    Sample.no_fetch (Sample.request "1d" (Some true) 10)))
     !! "_high_salary" = Some (VBool true)).
Proof.
  apply (get_jobs_remote_marks Sample.config
           (Sample.one_record
              (Sample.posting "Engineer" "Austin, TX" "u7" VNone (VNum 200000)))
           Sample.no_fetch (Sample.request "1d" (Some true) 10)
           (try_except
              (get_jobs_body Sample.config
                 (Sample.one_record
                    (Sample.posting "Engineer" "Austin, TX" "u7" VNone (VNum 200000)))
                 Sample.no_fetch (Sample.request "1d" (Some true) 10))
              (fun _ => error_response))).
  - reflexivity.
  - reflexivity.
  - vm_compute. apply list_elem_of_here.
Defined.

(** A scraper that fails everywhere still gives a response without error. *)
Example search_all_all_locations_fail :
  search_all Sample.city_config Sample.failing_scraper Sample.no_fetch
    (Sample.request "1d" None 10)
  = Ok {| error := false; jobs := []; locations_searched := Some ["nyc"] |}.
Proof. vm_compute. reflexivity. Qed.

(** ** The adapters *)

(** X23.  The keyword arguments of the multi-site scraper carry either the
    remote flag or a location, never both and never neither: a remote
    search drops the location and the distance, a search that is not remote
    always names a non-empty location (the whole country when none is
    given), and a distance goes only with a location of the caller. *)
Theorem scrape_params_remote_or_location (CONFIG : Config)
    (search_term : string) (hours_old results_wanted : Z)
    (is_remote : bool) (location : option string) (distance : Z) :
  let p := scrape_params CONFIG search_term hours_old results_wanted
             is_remote location distance in
  (if is_remote
   then p_is_remote p = Some true /\ p_location p = None /\ p_distance p = None
   else p_is_remote p = None /\
        exists l, p_location p = Some l /\ l <> "" /\
                  (l = "United States" \/ location = Some l)) /\
  (forall d, p_distance p = Some d ->
             d = distance /\ p_location p = location /\ str_truthy location = true).
Proof.
  cbv zeta. unfold scrape_params. cbn.
  assert (Hus : exists l, Some "United States" = Some l /\ l <> "" /\
                          (l = "United States" \/ location = Some l)).
  { exists "United States". split; [reflexivity|]. split; [discriminate|now left]. }
  destruct is_remote.
  - split; [auto|]. discriminate.
  - destruct location as [l|]; cbn in *.
    + destruct (String.eqb l "") eqn:E; cbn.
      * split; [|discriminate]. now split.
      * split.
        -- split; [reflexivity|]. exists l. split; [reflexivity|].
           split; [now apply String.eqb_neq|now right].
        -- intros d Hd. inversion Hd. auto.
    + split; [|discriminate]. now split.
Qed.

Lemma scrape_usajobs_query (CONFIG : Config) (fetch : UsajobsFetch)
    (search_term : string) (hours_old results_wanted : Z)
    (is_remote : bool) (location : option string) (distance : Z) :
  scrape_usajobs CONFIG fetch search_term hours_old results_wanted
    is_remote location distance
  = match cfg_usajobs_api_key CONFIG, cfg_usajobs_email CONFIG with
    | Some api_key, Some email =>
        if String.eqb api_key "" || String.eqb email "" then []
        else try_except
               (fetch (usajobs_query api_key email search_term hours_old results_wanted
                         is_remote location distance))
               (fun _ => [])
    | _, _ => []
    end.
Proof. reflexivity. Qed.

Lemma usajobs_query_admissible (api_key email search_term : string)
    (hours_old results_wanted : Z)
    (is_remote : bool) (location : option string) (distance : Z) :
  0 <= hours_old ->
  String.eqb api_key "" || String.eqb email "" = false ->
  admissible_query is_remote
    (usajobs_query api_key email search_term hours_old results_wanted
       is_remote location distance) = true.
Proof.
  intros Hh Hcred. apply orb_false_iff in Hcred as [Hk He].
  unfold admissible_query, usajobs_query.
  cbn [q_date_posted q_results_per_page q_job_category_code
       q_user_agent q_authorization_key q_radius q_location_name].
  rewrite Hk, He. cbn [negb].
  assert (Hd : 0 <= hours_old / 24) by (apply Z.div_pos; lia).
  repeat (apply andb_true_iff; split); try reflexivity.
  - destruct (Z.min (hours_old / 24) 60 =? 0) eqn:E; lia.
  - destruct (Z.min (hours_old / 24) 60 =? 0) eqn:E; lia.
  - lia.
  - destruct (str_truthy location && negb is_remote) eqn:Ef; cbn [andb]; [|reflexivity].
    destruct (distance =? 0) eqn:Ed; cbn [negb]; [reflexivity|].
    rewrite ?Ed. cbn [negb andb]. now apply andb_true_iff in Ef as [-> _].
  - destruct (str_truthy location && negb is_remote) eqn:Ef; [|reflexivity].
    apply andb_true_iff in Ef as [Hl Hr].
    destruct location as [l|]; [|reflexivity]. cbn in Hl. now rewrite Hr, Hl.
Qed.

(** X24.  For a lookback that is not negative, the government-jobs adapter
    only ever sends admissible queries: between 1 and 60 days, at most 500
    results per page, the fixed category, both credentials, a radius only
    with a location and no location for a remote search.  So two fetch
    functions that agree on the admissible queries give the same records. *)
Theorem scrape_usajobs_admissible_queries (CONFIG : Config) (fetch1 fetch2 : UsajobsFetch)
    (search_term : string) (hours_old results_wanted : Z)
    (is_remote : bool) (location : option string) (distance : Z) :
  0 <= hours_old ->
  (forall q, admissible_query is_remote q = true -> fetch1 q = fetch2 q) ->
  scrape_usajobs CONFIG fetch1 search_term hours_old results_wanted
    is_remote location distance
  = scrape_usajobs CONFIG fetch2 search_term hours_old results_wanted
      is_remote location distance.
Proof.
  intros Hh Hagree. rewrite !scrape_usajobs_query.
  destruct (cfg_usajobs_api_key CONFIG) as [api_key|]; [|reflexivity].
  destruct (cfg_usajobs_email CONFIG) as [email|]; [|reflexivity].
  destruct (String.eqb api_key "" || String.eqb email "") eqn:E; [reflexivity|].
  now rewrite Hagree by now apply usajobs_query_admissible.
Qed.

Lemma scrape_usajobs_admissible_queries_witness :
  scrape_usajobs Sample.gov_config Sample.gov_fetch "admin" 1000000 9999 true
    (Some "Denver, CO") 25
  = scrape_usajobs Sample.gov_config
      (fun q => if admissible_query true q then Ok [Sample.dated] else Raise ValueError)
      "admin" 1000000 9999 true (Some "Denver, CO") 25.
Proof.
  apply (scrape_usajobs_admissible_queries Sample.gov_config Sample.gov_fetch
           (fun q => if admissible_query true q then Ok [Sample.dated] else Raise ValueError)).
  - vm_compute. discriminate.
  - intros q Hq. now rewrite Hq.
Defined.



(** ** Lookback conversion, again *)

(** X26.  A unit other than [d] and [w] is not an error: the digits of any
    natural number, at most 4300 of them, followed by any other character
    give 24 hours, whatever the number. *)
Theorem parse_since_when_other_unit (n : N) (unit : ascii) :
  (Decimal.nb_digits (N.to_uint n) <= int_max_str_digits)%nat ->
  unit <> "d"%char -> unit <> "w"%char ->
  parse_since_when (Str.decimal n +:+ String unit "") = Ok 24.
Proof.
  intros Hlen Hd Hw. apply Nat.leb_le in Hlen. unfold parse_since_when.
  rewrite init_snoc, last_snoc, py_int_decimal, Hlen. cbn [mbind result_bind].
  apply Ascii.eqb_neq in Hd, Hw. now rewrite Hd, Hw.
Qed.

Lemma parse_since_when_other_unit_witness :
  parse_since_when (Str.decimal 365 +:+ "h") = Ok 24.
Proof.
  apply (parse_since_when_other_unit 365 "h"); [vm_compute; lia|discriminate..].
Defined.

(** X27.  A text of fewer than two characters has no digits before its
    unit: the conversion raises a [ValueError]. *)
Theorem parse_since_when_too_short (since_when : string) :
  (String.length since_when <= 1)%nat ->
  parse_since_when since_when = Raise ValueError.
Proof.
  intros H. destruct since_when as [|c [|c' s]]; cbn in H; try lia; reflexivity.
Qed.

Lemma parse_since_when_too_short_witness :
  parse_since_when "w" = Raise ValueError.
Proof. apply (parse_since_when_too_short "w"). cbn. lia. Defined.

Lemma zeros_numeral (k : nat) (d : Decimal.uint) :
  Str.zeros k +:+ NilEmpty.string_of_uint d
  = NilEmpty.string_of_uint (Nat.iter k Decimal.D0 d).
Proof.
  induction k as [|k IH]; [reflexivity|].
  change (String "0" (Str.zeros k +:+ NilEmpty.string_of_uint d)
          = String "0" (NilEmpty.string_of_uint (Nat.iter k Decimal.D0 d))).
  now rewrite IH.
Qed.

Lemma zeros_numeral_facts (k : nat) (d : Decimal.uint) :
  d <> Decimal.Nil ->
  Nat.iter k Decimal.D0 d <> Decimal.Nil /\
  Decimal.nb_digits (Nat.iter k Decimal.D0 d) = (k + Decimal.nb_digits d)%nat /\
  Z.of_uint (Nat.iter k Decimal.D0 d) = Z.of_uint d.
Proof.
  intros Hd. induction k as [|k (IH1 & IH2 & IH3)]; [auto|].
  change (Nat.iter (S k) Decimal.D0 d) with (Decimal.D0 (Nat.iter k Decimal.D0 d)).
  split; [discriminate|]. split.
  - change (S (Decimal.nb_digits (Nat.iter k Decimal.D0 d)) = S (k + Decimal.nb_digits d))%nat.
    now rewrite IH2.
  - exact IH3.
Qed.

Lemma str_app_assoc (a b c : string) : a +:+ (b +:+ c) = (a +:+ b) +:+ c.
Proof.
  induction a as [|x a IH]; [reflexivity|].
  change (String x (a +:+ (b +:+ c)) = String x ((a +:+ b) +:+ c)).
  now rewrite IH.
Qed.

(** X28.  Leading zeros do not change the result: the digits of [N] behind
    any number of zeros, no more than 4300 characters in all, followed by
    [d] or [w], still give [N * 24] and [N * 168] hours. *)
Theorem parse_since_when_leading_zeros (k : nat) (n : N) :
  (k + Decimal.nb_digits (N.to_uint n) <= int_max_str_digits)%nat ->
  parse_since_when (Str.zeros k +:+ Str.decimal n +:+ "d") = Ok (Z.of_N n * 24) /\
  parse_since_when (Str.zeros k +:+ Str.decimal n +:+ "w") = Ok (Z.of_N n * 168).
Proof.
  intros Hlen.
  destruct (zeros_numeral_facts k (N.to_uint n) (to_uint_not_nil n)) as (H1 & H2 & H3).
  assert (Hint : py_int (Str.zeros k +:+ Str.decimal n) = Ok (Z.of_N n)).
  { unfold Str.decimal. rewrite zeros_numeral, (py_int_numeral _ H1), H2, H3.
    apply Nat.leb_le in Hlen. now rewrite Hlen, of_uint_to_uint. }
  unfold parse_since_when.
  rewrite !str_app_assoc, !init_snoc, !last_snoc, Hint. cbn.
  split; f_equal; lia.
Qed.

Lemma parse_since_when_leading_zeros_witness :
  parse_since_when (Str.zeros 2 +:+ Str.decimal 7 +:+ "d") = Ok 168 /\
  parse_since_when (Str.zeros 2 +:+ Str.decimal 7 +:+ "w") = Ok 1176.
Proof.
  apply (parse_since_when_leading_zeros 2 7). vm_compute. lia.
Defined.

(** ** The fan-out and the place of the request *)

(** X29.  Once locations are configured, the fan-out handler does not read
    the remote flag, the location or the distance of the request: changing
    them changes nothing in the response. *)
Theorem search_all_ignores_request_place (CONFIG : Config) (scrape_jobs : Scraper)
    (fetch : UsajobsFetch) (request : JobRequest)
    (remote : option bool) (place : option string) (radius : option Z) :
  cfg_locations CONFIG <> [] ->
  search_all CONFIG scrape_jobs fetch (with_place request remote place radius)
  = search_all CONFIG scrape_jobs fetch request.
Proof.
  intros Hlocs. unfold search_all, search_all_body, locations_of.
  destruct (cfg_locations CONFIG) as [|loc locs]; [contradiction|].
  reflexivity.
Qed.

Lemma search_all_ignores_request_place_witness :
  search_all Sample.city_config (Sample.one_record Sample.new_york) Sample.no_fetch
    (with_place (Sample.request "1d" None 10) (Some true) (Some "Boston, MA") (Some 5))
  = search_all Sample.city_config (Sample.one_record Sample.new_york) Sample.no_fetch
      (Sample.request "1d" None 10).
Proof.
  apply (search_all_ignores_request_place Sample.city_config
           (Sample.one_record Sample.new_york) Sample.no_fetch
           (Sample.request "1d" None 10)).
  discriminate.
Defined.

(** ** Texts beyond ASCII *)

(** Capital E with acute accent (U+00C9) and the no-break space (U+00A0). *)
Example lower_accented_capital :
  Str.lower ("ING" +:+ String (ascii_of_nat 201) "NIEUR")
  = "ing" +:+ String (ascii_of_nat 233) "nieur".
Proof. vm_compute. reflexivity. Qed.

Example strip_no_break_space :
  Str.strip (String (ascii_of_nat 160) " Austin TX" +:+ String (ascii_of_nat 160) "")
  = "Austin TX".
Proof. vm_compute. reflexivity. Qed.

(** In AND mode a keyword matches a title that writes it in capitals,
    accented ones too. *)
Example and_mode_filter_accented_capital :
  let posting : job :=
    {[ "title" := VStr ("ING" +:+ String (ascii_of_nat 201) "NIEUR DEVOPS") ]} in
  and_mode_filter [posting] ["ing" +:+ String (ascii_of_nat 233) "nieur"] = [posting].
Proof. vm_compute. reflexivity. Qed.

(** A location that is a no-break space alone counts as empty: the record
    is kept and its salary, a text here, is not read.  A location that ends
    in a no-break space is stripped before the state pattern is looked for:
    the record is dropped. *)
Example validate_no_break_space_location :
  validate_remote_jobs
    [Sample.posting "Engineer" (String (ascii_of_nat 160) "") "u1" VNone (VStr "160k")]
  = Ok [mark_validated
          (Sample.posting "Engineer" (String (ascii_of_nat 160) "") "u1" VNone (VStr "160k"))]
  /\
  validate_remote_jobs
    [Sample.posting "Engineer" ("Austin TX" +:+ String (ascii_of_nat 160) "") "u2"
       VNone VNone]
  = Ok [].
Proof. split; vm_compute; reflexivity. Qed.

(** What [int()] takes and what it refuses. *)
Example py_int_samples :
  py_int " 12 " = Ok 12 /\
  py_int "+7" = Ok 7 /\
  py_int "-7" = Ok (-7) /\
  py_int "1_000" = Ok 1000 /\
  py_int "007" = Ok 7 /\
  py_int "1__0" = Raise ValueError /\
  py_int "_1" = Raise ValueError /\
  py_int "1_" = Raise ValueError /\
  py_int "+ 1" = Raise ValueError /\
  py_int "1 2" = Raise ValueError /\
  py_int "+" = Raise ValueError /\
  py_int "" = Raise ValueError.
Proof. repeat split; vm_compute; reflexivity. Qed.

Example parse_since_when_signed :
  parse_since_when "-5d" = Ok (-120) /\ parse_since_when " 2w" = Ok 336.
Proof. split; vm_compute; reflexivity. Qed.
